(** * net-tools: the WebSocket ping session of package [pkg]

    A shallow embedding of the option resolver, the address normaliser,
    the report builder and the tick loop of [PingHandler], followed by
    the properties of the probe session engine.

    Conventions of the embedding.
    - Go's [int] is the 64-bit two's-complement integer of the usual
      targets; it is a [Z] and every arithmetic operation of the source
      is written with its wrap-around ([GoInt.add], [GoInt.sub],
      [GoInt.mul]); [%] is Go's truncated remainder and panics on a zero
      divisor ([GoInt.rem]).
    - A Go [string] is a byte sequence: [String.string].
    - A nilable field [*T] of the inbound message is an [option T].
    - A Go [error] is [option string]: [None] is [nil], [Some m] is an
      error whose text is [m].
    - The handler talks to the outside (the upgraded connection, the
      HTTP client, the ticker, the clock).  What the outside answers is
      an explicit environment ([Env], one [TickEnv] per tick the ticker
      delivers); what the handler does to it is the list of [Event]s it
      returns, together with the way the session ended ([Outcome]).
      [log.Printf] writes to the process log, not to the channel, and is
      left out of the event list. *)

From Stdlib Require Import ZArith List String Ascii Bool Lia QArith.
Import ListNotations.

Local Open Scope string_scope.
Local Open Scope list_scope.
Local Open Scope Z_scope.

(* ================================================================== *)
(** * Part I: the embedding *)
(* ================================================================== *)

(** ** Machine integers *)

Module GoInt.

Definition min_int : Z := - 2 ^ 63.
Definition max_int : Z := 2 ^ 63 - 1.

(** [z] is a value of Go's [int]. *)
Definition in_range (z : Z) : Prop := min_int <= z <= max_int.

(** Two's-complement wrap-around of a mathematical integer. *)
Definition wrap (z : Z) : Z := (z + 2 ^ 63) mod 2 ^ 64 - 2 ^ 63.

Definition add (a b : Z) : Z := wrap (a + b).
Definition sub (a b : Z) : Z := wrap (a - b).
Definition mul (a b : Z) : Z := wrap (a * b).

(** [a % b]: the remainder has the sign of the dividend and a
    magnitude below that of the divisor, so it never wraps; a zero
    divisor is a run-time panic ([None]). *)
Definition rem (a b : Z) : option Z :=
  if b =? 0 then None else Some (Z.rem a b).

End GoInt.

(** ** Constants of the package *)

Definition defaultCount : Z := 0.
Definition defaultWait : Z := 1.
Definition defaultTTL : Z := 64.
Definition defaultPacketSize : Z := 56.
Definition defaultTimeout : Z := 5.
Definition defaultWaitTime : Z := 10.
Definition defaultTOS : Z := 0.
Definition defaultPreload : Z := 0.
Definition defaultSweepMin : Z := 0.
Definition defaultSweepMax : Z := 0.
Definition defaultSweepIncr : Z := 0.

(** [time.Second] and [time.Millisecond], in nanoseconds. *)
Definition Second : Z := 1000000000.
Definition Millisecond : Z := 1000000.

(** ** Messages and options *)

Module PingMessage.
Record t : Type := mk {
  Address : string;
  Adaptive : option bool;
  Audible : option bool;
  Debug : option bool;
  Flood : option bool;
  Numeric : option bool;
  Quiet : option bool;
  Timestamp : option bool;
  Verbose : option bool;
  Count : option Z;
  SweepMaxSize : option Z;
  SweepMinSize : option Z;
  SweepIncrSize : option Z;
  Wait : option Z;
  Preload : option Z;
  Mask : option string;
  TTL : option Z;
  Pattern : option string;
  SourceAddr : option string;
  PacketSize : option Z;
  Timeout : option Z;
  WaitTime : option Z;
  TOS : option Z
}.

(** The message that carries an address and nothing else. *)
Definition bare (address : string) : t :=
  {| Address := address;
     Adaptive := None; Audible := None; Debug := None; Flood := None;
     Numeric := None; Quiet := None; Timestamp := None; Verbose := None;
     Count := None; SweepMaxSize := None; SweepMinSize := None;
     SweepIncrSize := None; Wait := None; Preload := None; Mask := None;
     TTL := None; Pattern := None; SourceAddr := None; PacketSize := None;
     Timeout := None; WaitTime := None; TOS := None |}.

(** A message that sets the count, the interval, the time to live,
    the sweep bounds and the flood and quiet flags, and leaves the rest
    absent. *)
Definition request (address : string) (count wait ttl : option Z)
    (sweepMin sweepMax sweepIncr : option Z) (flood quiet : option bool)
  : t :=
  {| Address := address;
     Adaptive := None; Audible := None; Debug := None; Flood := flood;
     Numeric := None; Quiet := quiet; Timestamp := None; Verbose := None;
     Count := count; SweepMaxSize := sweepMax; SweepMinSize := sweepMin;
     SweepIncrSize := sweepIncr; Wait := wait; Preload := None;
     Mask := None; TTL := ttl; Pattern := None; SourceAddr := None;
     PacketSize := None; Timeout := None; WaitTime := None; TOS := None |}.
End PingMessage.

Module PongMessage.
Record t : Type := mk {
  Type_ : string;
  Timestamp : Z;
  Bytes : Z;
  Sequence : Z;
  Address : string;
  Latency : Q;
  Success : bool
}.

Definition with_Bytes (p : t) (b : Z) : t :=
  mk (Type_ p) (Timestamp p) b (Sequence p) (Address p) (Latency p)
     (Success p).
End PongMessage.

Module PingOptions.
Record t : Type := mk {
  Count : Z;
  Wait : Z;
  TTL : Z;
  PacketSize : Z;
  Timeout : Z;
  WaitTime : Z;
  TOS : Z;
  Preload : Z;
  SweepMinSize : Z;
  SweepMaxSize : Z;
  SweepIncrSize : Z;
  SourceAddr : string;
  Pattern : string;
  Mask : string;
  IsAdaptive : bool;
  IsAudible : bool;
  IsDebug : bool;
  IsFlood : bool;
  IsNumeric : bool;
  IsQuiet : bool;
  HasTimestamp : bool;
  IsVerbose : bool
}.

(** [opts.Wait = w]. *)
Definition with_Wait (o : t) (w : Z) : t :=
  mk (Count o) w (TTL o) (PacketSize o) (Timeout o) (WaitTime o) (TOS o)
     (Preload o) (SweepMinSize o) (SweepMaxSize o) (SweepIncrSize o)
     (SourceAddr o) (Pattern o) (Mask o) (IsAdaptive o) (IsAudible o)
     (IsDebug o) (IsFlood o) (IsNumeric o) (IsQuiet o) (HasTimestamp o)
     (IsVerbose o).

(** The same options with the quiet flag set to [q]. *)
Definition with_IsQuiet (o : t) (q : bool) : t :=
  mk (Count o) (Wait o) (TTL o) (PacketSize o) (Timeout o) (WaitTime o)
     (TOS o) (Preload o) (SweepMinSize o) (SweepMaxSize o)
     (SweepIncrSize o) (SourceAddr o) (Pattern o) (Mask o) (IsAdaptive o)
     (IsAudible o) (IsDebug o) (IsFlood o) (IsNumeric o) q
     (HasTimestamp o) (IsVerbose o).

(** The same options with the preload count [n]. *)
Definition with_Preload (o : t) (n : Z) : t :=
  mk (Count o) (Wait o) (TTL o) (PacketSize o) (Timeout o) (WaitTime o)
     (TOS o) n (SweepMinSize o) (SweepMaxSize o) (SweepIncrSize o)
     (SourceAddr o) (Pattern o) (Mask o) (IsAdaptive o) (IsAudible o)
     (IsDebug o) (IsFlood o) (IsNumeric o) (IsQuiet o) (HasTimestamp o)
     (IsVerbose o).
End PingOptions.

(** ** The option resolver *)

Definition error : Type := option string.

Definition getOrDefault {T : Type} (value : option T) (defaultValue : T) : T :=
  match value with
  | None => defaultValue
  | Some v => v
  end.

(** [if bad { return fmt.Errorf(msg) }] followed by the rest of the
    function. *)
Definition reject (bad : bool) (msg : string) (rest : error) : error :=
  if bad then Some msg else rest.

Notation "'when' bad 'fail' msg ';;' rest" :=
  (reject bad msg rest)
  (at level 10, bad at level 200, msg at level 0, rest at level 200,
   format "'[v' 'when'  bad  'fail'  msg  ';;' '/' rest ']'").

Definition validatePingOptions (opts : PingOptions.t) : error :=
  let after_sweep : error :=
    when PingOptions.Timeout opts <=? 0
      fail "timeout must be positive" ;;
    when PingOptions.WaitTime opts <=? 0
      fail "wait time must be positive" ;;
    when (PingOptions.TOS opts <? 0) || (PingOptions.TOS opts >? 255)
      fail "TOS must be between 0 and 255" ;;
    None in
  when PingOptions.Count opts <? 0
    fail "count cannot be negative" ;;
  when PingOptions.Wait opts <? 0
    fail "wait interval cannot be negative" ;;
  when (PingOptions.TTL opts <=? 0) || (PingOptions.TTL opts >? 255)
    fail "TTL must be between 1 and 255" ;;
  when PingOptions.PacketSize opts <? 0
    fail "packet size cannot be negative" ;;
  if PingOptions.SweepMaxSize opts >? 0 then
    when PingOptions.SweepMinSize opts >=? PingOptions.SweepMaxSize opts
      fail "sweep min size must be less than max size" ;;
    when PingOptions.SweepIncrSize opts <=? 0
      fail "sweep increment size must be positive" ;;
    after_sweep
  else after_sweep.

(** The struct literal at the head of [resolvePingOptions]. *)
Definition mergeDefaults (msg : PingMessage.t) : PingOptions.t :=
  {| PingOptions.Count := getOrDefault (PingMessage.Count msg) defaultCount;
     PingOptions.Wait := getOrDefault (PingMessage.Wait msg) defaultWait;
     PingOptions.TTL := getOrDefault (PingMessage.TTL msg) defaultTTL;
     PingOptions.PacketSize :=
       getOrDefault (PingMessage.PacketSize msg) defaultPacketSize;
     PingOptions.Timeout :=
       getOrDefault (PingMessage.Timeout msg) defaultTimeout;
     PingOptions.WaitTime :=
       getOrDefault (PingMessage.WaitTime msg) defaultWaitTime;
     PingOptions.TOS := getOrDefault (PingMessage.TOS msg) defaultTOS;
     PingOptions.SweepMinSize :=
       getOrDefault (PingMessage.SweepMinSize msg) defaultSweepMin;
     PingOptions.SweepMaxSize :=
       getOrDefault (PingMessage.SweepMaxSize msg) defaultSweepMax;
     PingOptions.SweepIncrSize :=
       getOrDefault (PingMessage.SweepIncrSize msg) defaultSweepIncr;
     PingOptions.Preload :=
       getOrDefault (PingMessage.Preload msg) defaultPreload;
     PingOptions.SourceAddr := getOrDefault (PingMessage.SourceAddr msg) "";
     PingOptions.Pattern := getOrDefault (PingMessage.Pattern msg) "";
     PingOptions.Mask := getOrDefault (PingMessage.Mask msg) "";
     PingOptions.IsAdaptive := getOrDefault (PingMessage.Adaptive msg) false;
     PingOptions.IsAudible := getOrDefault (PingMessage.Audible msg) false;
     PingOptions.IsDebug := getOrDefault (PingMessage.Debug msg) false;
     PingOptions.IsFlood := getOrDefault (PingMessage.Flood msg) false;
     PingOptions.IsNumeric := getOrDefault (PingMessage.Numeric msg) false;
     PingOptions.IsQuiet := getOrDefault (PingMessage.Quiet msg) false;
     PingOptions.HasTimestamp :=
       getOrDefault (PingMessage.Timestamp msg) false;
     PingOptions.IsVerbose := getOrDefault (PingMessage.Verbose msg) false |}.

(** Go returns the option struct together with the error; on failure the
    struct is the merged one, before the flood override. *)
Definition resolvePingOptions (msg : PingMessage.t) : PingOptions.t * error :=
  let opts := mergeDefaults msg in
  match validatePingOptions opts with
  | Some err => (opts, Some ("invalid ping options: " ++ err)%string)
  | None =>
      let opts :=
        if PingOptions.IsFlood opts then PingOptions.with_Wait opts 1
        else opts in
      (opts, None)
  end.

(** ** Address normalisation *)

(** [strings.HasPrefix s p] is [String.prefix p s]. *)
Definition HasPrefix (s p : string) : bool := String.prefix p s.

Definition formatAddress (addr : string) : string :=
  if negb (HasPrefix addr "http://") && negb (HasPrefix addr "https://")
  then ("http://" ++ addr)%string
  else addr.

(** ** The outside world *)

(** What the outside answers during one iteration of the tick loop. *)
Record TickEnv : Type := {
  (** [time.Now()] when the report is built *)
  now : Z;
  (** [client.Get(address)]: the microseconds elapsed until the
      response, or the error *)
  get : Z + string;
  (** the result of [conn.WriteJSON] *)
  writeJSON : error;
  (** the result of [conn.WriteControl] *)
  writeControl : error
}.

Record Env : Type := {
  (** the result of [upgrader.Upgrade] *)
  upgrade : error;
  (** [conn.ReadJSON(&pingMsg)]: the decoded message, or the error *)
  readJSON : PingMessage.t + string;
  (** one entry per tick delivered on [ticker.C] *)
  ticks : list TickEnv
}.

(** What the handler does to the outside. *)
Inductive Event : Type :=
  | Get (address : string)
  | GoPreload (address : string)
  | WriteJSON (msg : PongMessage.t) (result : error)
  | WriteControl (result : error)
  | Sleep (d : Z)
  | Close.

(** How a run of the handler ends.  [AwaitingTick] is the handler
    blocked on [ticker.C] after the last tick of the environment; the
    others are its return sites and its panics. *)
Inductive Outcome : Type :=
  | UpgradeError
  | ReadError
  | InvalidOption (err : string)
  | CountExhausted
  | WriteError
  | PeerUnreachable
  | Panicked (reason : string)
  | AwaitingTick.

(** ** A small monad for the handler: the events so far, and either the
    end of the session or a value to go on with. *)

Definition Step (A : Type) : Type := (list Event * (Outcome + A))%type.

Definition ret {A : Type} (a : A) : Step A := ([], inr a).

Definition stop {A : Type} (o : Outcome) : Step A := ([], inl o).

Definition emit (e : Event) : Step unit := ([e], inr tt).

Definition bind {A B : Type} (m : Step A) (k : A -> Step B) : Step B :=
  match m with
  | (evs, inl o) => (evs, inl o)
  | (evs, inr a) => let (evs', r) := k a in (evs ++ evs', r)
  end.

Notation "x <- m ;; k" := (bind m (fun x => k))
  (at level 61, m at next level, right associativity).
Notation "m ;;; k" := (bind m (fun _ => k))
  (at level 61, right associativity).

Definition is_nil (err : error) : bool :=
  match err with
  | None => true
  | Some _ => false
  end.

(** ** Probe, report builder, channel writes *)

(** The float [float64(us) / 1000.0] is kept as the exact rational. *)
Definition measureLatency (e : TickEnv) (address : string)
  : Step (Q * error) :=
  emit (Get address) ;;;
  match get e with
  | inr err => ret (0%Q, Some err)
  | inl us => ret (Qmake us 1000, None)
  end.

Definition createPongMessage (now : Z) (address : string) (sequence : Z)
    (latency : Q) (success : bool) : PongMessage.t :=
  {| PongMessage.Type_ := "pong";
     PongMessage.Timestamp := now;
     PongMessage.Bytes := defaultPacketSize;
     PongMessage.Sequence := sequence;
     PongMessage.Address := address;
     PongMessage.Latency := latency;
     PongMessage.Success := success |}.

Definition sendPongMessage (e : TickEnv) (msg : PongMessage.t) : Step error :=
  emit (WriteJSON msg (writeJSON e)) ;;;
  match writeJSON e with
  | Some err => ret (Some ("error writing pong: " ++ err)%string)
  | None => ret None
  end.

Definition checkConnection (e : TickEnv) : Step error :=
  emit (WriteControl (writeControl e)) ;;;
  match writeControl e with
  | Some err => ret (Some ("client disconnected: " ++ err)%string)
  | None => ret None
  end.

(** ** The tick loop *)

(** The byte size of the tick whose incremented counter is [sequence];
    [None] is the panic of [%] on a zero divisor. *)
Definition currentPacketSize (opts : PingOptions.t) (sequence : Z)
  : option Z :=
  if PingOptions.SweepMaxSize opts >? 0 then
    match GoInt.rem
            (GoInt.mul (GoInt.sub sequence 1) (PingOptions.SweepIncrSize opts))
            (GoInt.add (GoInt.sub (PingOptions.SweepMaxSize opts)
                                  (PingOptions.SweepMinSize opts)) 1)
    with
    | Some r => Some (GoInt.add (PingOptions.SweepMinSize opts) r)
    | None => None
    end
  else Some (PingOptions.PacketSize opts).

(** The body of [for range ticker.C]: the value it goes on with is the
    counter for the next iteration. *)
Definition tick (opts : PingOptions.t) (address : string) (e : TickEnv)
    (sequence : Z) : Step Z :=
  if (PingOptions.Count opts >? 0) && (sequence >=? PingOptions.Count opts)
  then stop CountExhausted
  else
    let sequence := GoInt.add sequence 1 in
    size <- match currentPacketSize opts sequence with
            | Some size => ret size
            | None => stop (Panicked "runtime error: integer divide by zero")
            end ;;
    r <- measureLatency e address ;;
    let latency := fst r in
    let success := is_nil (snd r) in
    let pong :=
      createPongMessage (now e) address (GoInt.sub sequence 1) latency
                        success in
    let pong := PongMessage.with_Bytes pong size in
    (if negb (PingOptions.IsQuiet opts) then
       err <- sendPongMessage e pong ;;
       if is_nil err then ret tt else stop WriteError
     else ret tt) ;;;
    (if negb (PingOptions.IsFlood opts) then
       err <- checkConnection e ;;
       if is_nil err then ret tt else stop PeerUnreachable
     else ret tt) ;;;
    (if PingOptions.IsFlood opts then emit (Sleep Millisecond) else ret tt) ;;;
    ret sequence.

Fixpoint loop (opts : PingOptions.t) (address : string)
    (ticks : list TickEnv) (sequence : Z) : list Event * Outcome :=
  match ticks with
  | [] => ([], AwaitingTick)
  | e :: ticks' =>
      match tick opts address e sequence with
      | (evs, inl o) => (evs, o)
      | (evs, inr sequence') =>
          let (evs', o) := loop opts address ticks' sequence' in
          (evs ++ evs', o)
      end
  end.

(** ** The handler *)

(** [time.NewTicker d] panics unless [d] is positive. *)
Definition NewTicker (d : Z) : option Z :=
  if d <=? 0 then None else Some d.

(** The goroutines launched before the loop; each one probes on its
    own and touches neither the channel nor the counter. *)
Definition preload (opts : PingOptions.t) (address : string) : list Event :=
  if PingOptions.Preload opts >? 0
  then repeat (GoPreload address) (Z.to_nat (PingOptions.Preload opts))
  else [].

(** [defer conn.Close()]: runs when the handler returns or panics. *)
Definition deferClose (r : list Event * Outcome) : list Event * Outcome :=
  match snd r with
  | AwaitingTick => r
  | o => (fst r ++ [Close], o)
  end.

(** The handler from the creation of the ticker on: the ticker, the
    counter, the preload and the loop. *)
Definition session (opts : PingOptions.t) (address : string)
    (ticks : list TickEnv) : list Event * Outcome :=
  match NewTicker (GoInt.mul (PingOptions.Wait opts) Second) with
  | None => ([], Panicked "non-positive interval for NewTicker")
  | Some _ =>
      let sequence := 0 in
      let (evs, o) := loop opts address ticks sequence in
      (preload opts address ++ evs, o)
  end.

Definition PingHandler (env : Env) : list Event * Outcome :=
  match upgrade env with
  | Some _ => ([], UpgradeError)
  | None =>
      deferClose
        match readJSON env with
        | inr _ => ([], ReadError)
        | inl pingMsg =>
            match resolvePingOptions pingMsg with
            | (_, Some err) => ([], InvalidOption err)
            | (opts, None) =>
                session opts (formatAddress (PingMessage.Address pingMsg))
                        (ticks env)
            end
        end
  end.

(** ** The handler of the revision without options

    The second revision of the file under [src/]: no [PingOptions], a
    fixed interval of one second, and a report builder that ignores its
    [success] argument. *)

Module Legacy.

Definition pingInterval : Z := Second.
Definition responseBytes : Z := 64.

Definition formatAddress (addr : string) : string :=
  if negb (HasPrefix addr "http://") && negb (HasPrefix addr "https://")
  then ("http://" ++ addr)%string
  else addr.

Definition createPongMessage (now : Z) (address : string) (sequence : Z)
    (latency : Q) (success : bool) : PongMessage.t :=
  {| PongMessage.Type_ := "pong";
     PongMessage.Timestamp := now;
     PongMessage.Bytes := responseBytes;
     PongMessage.Sequence := sequence;
     PongMessage.Address := address;
     PongMessage.Latency := latency;
     PongMessage.Success := false |}.

Definition tick (address : string) (e : TickEnv) (sequence : Z) : Step Z :=
  let sequence := GoInt.add sequence 1 in
  r <- measureLatency e address ;;
  let latency := fst r in
  let success := is_nil (snd r) in
  let pong :=
    createPongMessage (now e) address (GoInt.sub sequence 1) latency
                      success in
  (err <- sendPongMessage e pong ;;
   if is_nil err then ret tt else stop WriteError) ;;;
  (err <- checkConnection e ;;
   if is_nil err then ret tt else stop PeerUnreachable) ;;;
  ret sequence.

Fixpoint loop (address : string) (ticks : list TickEnv) (sequence : Z)
  : list Event * Outcome :=
  match ticks with
  | [] => ([], AwaitingTick)
  | e :: ticks' =>
      match tick address e sequence with
      | (evs, inl o) => (evs, o)
      | (evs, inr sequence') =>
          let (evs', o) := loop address ticks' sequence' in
          (evs ++ evs', o)
      end
  end.

Definition PingHandler (env : Env) : list Event * Outcome :=
  match upgrade env with
  | Some _ => ([], UpgradeError)
  | None =>
      deferClose
        match readJSON env with
        | inr _ => ([], ReadError)
        | inl ping =>
            match NewTicker pingInterval with
            | None => ([], Panicked "non-positive interval for NewTicker")
            | Some _ =>
                loop (formatAddress (PingMessage.Address ping))
                     (ticks env) 0
            end
        end
  end.

End Legacy.

(** ** What the peer sees *)

(** The reports that reached the channel, in order. *)
Fixpoint reports (evs : list Event) : list PongMessage.t :=
  match evs with
  | [] => []
  | WriteJSON msg None :: evs' => msg :: reports evs'
  | _ :: evs' => reports evs'
  end.

(** The number of measurements attempted by the loop. *)
Fixpoint measurements (evs : list Event) : nat :=
  match evs with
  | [] => O
  | Get _ :: evs' => S (measurements evs')
  | _ :: evs' => measurements evs'
  end.

(** The number of liveness checks attempted. *)
Fixpoint checks (evs : list Event) : nat :=
  match evs with
  | [] => O
  | WriteControl _ :: evs' => S (checks evs')
  | _ :: evs' => checks evs'
  end.

(** The events other than channel writes of reports. *)
Fixpoint without_writes (evs : list Event) : list Event :=
  match evs with
  | [] => []
  | WriteJSON _ _ :: evs' => without_writes evs'
  | e :: evs' => e :: without_writes evs'
  end.

(* ================================================================== *)
(** * Part II: the vocabulary of the specification *)
(* ================================================================== *)

(** ** Option resolution *)

(** The built-in defaults, field by field. *)
Definition builtinDefaults : PingOptions.t :=
  {| PingOptions.Count := 0;
     PingOptions.Wait := 1;
     PingOptions.TTL := 64;
     PingOptions.PacketSize := 56;
     PingOptions.Timeout := 5;
     PingOptions.WaitTime := 10;
     PingOptions.TOS := 0;
     PingOptions.Preload := 0;
     PingOptions.SweepMinSize := 0;
     PingOptions.SweepMaxSize := 0;
     PingOptions.SweepIncrSize := 0;
     PingOptions.SourceAddr := "";
     PingOptions.Pattern := "";
     PingOptions.Mask := "";
     PingOptions.IsAdaptive := false;
     PingOptions.IsAudible := false;
     PingOptions.IsDebug := false;
     PingOptions.IsFlood := false;
     PingOptions.IsNumeric := false;
     PingOptions.IsQuiet := false;
     PingOptions.HasTimestamp := false;
     PingOptions.IsVerbose := false |}.

(** A resolved field honours the message when it equals the value the
    message supplies for it, if it supplies one. *)
Definition honours {T : Type} (supplied : option T) (resolved : T) : Prop :=
  forall v, supplied = Some v -> resolved = v.

(** Every field but the interval honours the message. *)
Definition honours_but_interval (msg : PingMessage.t) (opts : PingOptions.t)
  : Prop :=
  honours (PingMessage.Count msg) (PingOptions.Count opts) /\
  honours (PingMessage.TTL msg) (PingOptions.TTL opts) /\
  honours (PingMessage.PacketSize msg) (PingOptions.PacketSize opts) /\
  honours (PingMessage.Timeout msg) (PingOptions.Timeout opts) /\
  honours (PingMessage.WaitTime msg) (PingOptions.WaitTime opts) /\
  honours (PingMessage.TOS msg) (PingOptions.TOS opts) /\
  honours (PingMessage.Preload msg) (PingOptions.Preload opts) /\
  honours (PingMessage.SweepMinSize msg) (PingOptions.SweepMinSize opts) /\
  honours (PingMessage.SweepMaxSize msg) (PingOptions.SweepMaxSize opts) /\
  honours (PingMessage.SweepIncrSize msg) (PingOptions.SweepIncrSize opts) /\
  honours (PingMessage.SourceAddr msg) (PingOptions.SourceAddr opts) /\
  honours (PingMessage.Pattern msg) (PingOptions.Pattern opts) /\
  honours (PingMessage.Mask msg) (PingOptions.Mask opts) /\
  honours (PingMessage.Adaptive msg) (PingOptions.IsAdaptive opts) /\
  honours (PingMessage.Audible msg) (PingOptions.IsAudible opts) /\
  honours (PingMessage.Debug msg) (PingOptions.IsDebug opts) /\
  honours (PingMessage.Flood msg) (PingOptions.IsFlood opts) /\
  honours (PingMessage.Numeric msg) (PingOptions.IsNumeric opts) /\
  honours (PingMessage.Quiet msg) (PingOptions.IsQuiet opts) /\
  honours (PingMessage.Timestamp msg) (PingOptions.HasTimestamp opts) /\
  honours (PingMessage.Verbose msg) (PingOptions.IsVerbose opts).

(** Every field honours the message. *)
Definition honours_all (msg : PingMessage.t) (opts : PingOptions.t) : Prop :=
  honours (PingMessage.Wait msg) (PingOptions.Wait opts) /\
  honours_but_interval msg opts.

(** Every optional field that is present carries a value in the range
    the data model gives it.  The sweep range ties three fields
    together; a sweep field that is absent counts with its default, 0.
    Nothing is asked of the preload count, the strings and the flags. *)
Definition present_in_range (msg : PingMessage.t) : Prop :=
  (forall v, PingMessage.Count msg = Some v -> 0 <= v) /\
  (forall v, PingMessage.Wait msg = Some v -> 0 <= v) /\
  (forall v, PingMessage.TTL msg = Some v -> 1 <= v <= 255) /\
  (forall v, PingMessage.PacketSize msg = Some v -> 0 <= v) /\
  (forall v, PingMessage.Timeout msg = Some v -> 0 < v) /\
  (forall v, PingMessage.WaitTime msg = Some v -> 0 < v) /\
  (forall v, PingMessage.TOS msg = Some v -> 0 <= v <= 255) /\
  (0 < getOrDefault (PingMessage.SweepMaxSize msg) 0 ->
   getOrDefault (PingMessage.SweepMinSize msg) 0
     < getOrDefault (PingMessage.SweepMaxSize msg) 0 /\
   0 < getOrDefault (PingMessage.SweepIncrSize msg) 0).

(** The validation rules, in the order of the specification. *)
Inductive Rule : Type :=
  | CountRule
  | IntervalRule
  | TimeToLiveRule
  | PacketSizeRule
  | SweepRule
  | TimeoutRule
  | WaitTimeRule
  | TypeOfServiceRule.

Definition rule_order : list Rule :=
  [CountRule; IntervalRule; TimeToLiveRule; PacketSizeRule; SweepRule;
   TimeoutRule; WaitTimeRule; TypeOfServiceRule].

Definition rule_holds (r : Rule) (o : PingOptions.t) : bool :=
  match r with
  | CountRule => 0 <=? PingOptions.Count o
  | IntervalRule => 0 <=? PingOptions.Wait o
  | TimeToLiveRule => (1 <=? PingOptions.TTL o) && (PingOptions.TTL o <=? 255)
  | PacketSizeRule => 0 <=? PingOptions.PacketSize o
  | SweepRule =>
      if 0 <? PingOptions.SweepMaxSize o
      then (PingOptions.SweepMinSize o <? PingOptions.SweepMaxSize o)
           && (0 <? PingOptions.SweepIncrSize o)
      else true
  | TimeoutRule => 0 <? PingOptions.Timeout o
  | WaitTimeRule => 0 <? PingOptions.WaitTime o
  | TypeOfServiceRule =>
      (0 <=? PingOptions.TOS o) && (PingOptions.TOS o <=? 255)
  end.

(** The first rule of the order that the options break, if any. *)
Definition first_failing (o : PingOptions.t) : option Rule :=
  find (fun r => negb (rule_holds r o)) rule_order.

(** The rule a validation error speaks of. *)
Definition rule_of_error (err : string) : option Rule :=
  if (err =? "count cannot be negative")%string then Some CountRule
  else if (err =? "wait interval cannot be negative")%string
  then Some IntervalRule
  else if (err =? "TTL must be between 1 and 255")%string
  then Some TimeToLiveRule
  else if (err =? "packet size cannot be negative")%string
  then Some PacketSizeRule
  else if (err =? "sweep min size must be less than max size")%string
  then Some SweepRule
  else if (err =? "sweep increment size must be positive")%string
  then Some SweepRule
  else if (err =? "timeout must be positive")%string then Some TimeoutRule
  else if (err =? "wait time must be positive")%string
  then Some WaitTimeRule
  else if (err =? "TOS must be between 0 and 255")%string
  then Some TypeOfServiceRule
  else None.

(** ** Sessions *)

(** The byte size the specification gives the [k]-th tick of a session,
    [k] counted from 1, over the mathematical integers. *)
Definition effectiveSize (opts : PingOptions.t) (k : Z) : Z :=
  if PingOptions.SweepMaxSize opts <=? 0 then PingOptions.PacketSize opts
  else PingOptions.SweepMinSize opts
       + ((k - 1) * PingOptions.SweepIncrSize opts)
           mod (PingOptions.SweepMaxSize opts - PingOptions.SweepMinSize opts
                + 1).

(** [from], [from + 1], ..., [from + n - 1]. *)
Definition counting (from : Z) (n : nat) : list Z :=
  map (fun i => from + Z.of_nat i) (seq 0 n).

(** A tick on which the channel takes what is written to it. *)
Definition channel_ok (e : TickEnv) : Prop :=
  writeJSON e = None /\ writeControl e = None.

(** The ticker can be created. *)
Definition ticker_starts (opts : PingOptions.t) : Prop :=
  0 < GoInt.mul (PingOptions.Wait opts) Second.

(** The span of the sweep, as the machine computes it, is not zero. *)
Definition sweep_span_nonzero (opts : PingOptions.t) : Prop :=
  0 < PingOptions.SweepMaxSize opts ->
  GoInt.add (GoInt.sub (PingOptions.SweepMaxSize opts)
                       (PingOptions.SweepMinSize opts)) 1 <> 0.

(** The same tick with a channel that takes every report. *)
Definition accepting (e : TickEnv) : TickEnv :=
  {| now := now e; get := get e; writeJSON := None;
     writeControl := writeControl e |}.

(** Two ticks that differ at most in the answer of the probe. *)
Definition same_but_probe (e e' : TickEnv) : Prop :=
  now e = now e' /\ writeJSON e = writeJSON e'
  /\ writeControl e = writeControl e'.

(** An event with what the probe measured blanked out. *)
Definition blind (ev : Event) : Event :=
  match ev with
  | WriteJSON p r =>
      WriteJSON
        {| PongMessage.Type_ := PongMessage.Type_ p;
           PongMessage.Timestamp := PongMessage.Timestamp p;
           PongMessage.Bytes := PongMessage.Bytes p;
           PongMessage.Sequence := PongMessage.Sequence p;
           PongMessage.Address := PongMessage.Address p;
           PongMessage.Latency := 0%Q;
           PongMessage.Success := false |} r
  | _ => ev
  end.

Definition probe_ok (e : TickEnv) : bool :=
  match get e with
  | inl _ => true
  | inr _ => false
  end.

(** The session fails during setup: the configuration cannot be read,
    or it does not resolve. *)
Definition setup_fails (env : Env) : Prop :=
  match readJSON env with
  | inr _ => True
  | inl msg => snd (resolvePingOptions msg) <> None
  end.

(** ** Counting events *)

Definition is_get (ev : Event) : bool :=
  match ev with Get _ => true | _ => false end.

Definition is_preload (ev : Event) : bool :=
  match ev with GoPreload _ => true | _ => false end.

Definition is_write (ev : Event) : bool :=
  match ev with WriteJSON _ _ => true | _ => false end.

Definition is_check (ev : Event) : bool :=
  match ev with WriteControl _ => true | _ => false end.

Definition is_sleep (ev : Event) : bool :=
  match ev with Sleep _ => true | _ => false end.

Definition is_close (ev : Event) : bool :=
  match ev with Close => true | _ => false end.

(** How many events of a kind a run performed. *)
Definition occurrences (kind : Event -> bool) (evs : list Event) : nat :=
  List.length (filter kind evs).

(** The events other than the launches of warm-up probes. *)
Definition without_preloads (evs : list Event) : list Event :=
  filter (fun ev => negb (is_preload ev)) evs.

(** The same environment with more ticks to come. *)
Definition with_more_ticks (env : Env) (more : list TickEnv) : Env :=
  {| upgrade := upgrade env; readJSON := readJSON env;
     ticks := ticks env ++ more |}.

(** The span of the sweep as the machine computes it. *)
Definition machine_span (opts : PingOptions.t) : Z :=
  GoInt.add (GoInt.sub (PingOptions.SweepMaxSize opts)
                       (PingOptions.SweepMinSize opts)) 1.

(** A report of the options revision as the revision without options
    writes it: 64 bytes and no success. *)
Definition as_legacy (ev : Event) : Event :=
  match ev with
  | WriteJSON p r =>
      WriteJSON
        {| PongMessage.Type_ := PongMessage.Type_ p;
           PongMessage.Timestamp := PongMessage.Timestamp p;
           PongMessage.Bytes := Legacy.responseBytes;
           PongMessage.Sequence := PongMessage.Sequence p;
           PongMessage.Address := PongMessage.Address p;
           PongMessage.Latency := PongMessage.Latency p;
           PongMessage.Success := false |} r
  | _ => ev
  end.

(** ** Causes *)

(** What must hold of the options and the ticks of a session for it to
    end with the outcome [o]. *)
Definition stop_cause (opts : PingOptions.t) (ticks : list TickEnv)
    (o : Outcome) : Prop :=
  match o with
  | AwaitingTick => True
  | CountExhausted => 0 < PingOptions.Count opts
  | WriteError =>
      PingOptions.IsQuiet opts = false
      /\ exists e, In e ticks /\ writeJSON e <> None
  | PeerUnreachable =>
      PingOptions.IsFlood opts = false
      /\ exists e, In e ticks /\ writeControl e <> None
  | Panicked reason =>
      (reason = "non-positive interval for NewTicker"
       /\ GoInt.mul (PingOptions.Wait opts) Second <= 0)
      \/ (reason = "runtime error: integer divide by zero"
          /\ 0 < PingOptions.SweepMaxSize opts /\ machine_span opts = 0)
  | UpgradeError | ReadError | InvalidOption _ => False
  end.

(** The same for a run of the handler. *)
Definition handler_cause (env : Env) (o : Outcome) : Prop :=
  match o with
  | UpgradeError => upgrade env <> None
  | ReadError => upgrade env = None /\ exists err, readJSON env = inr err
  | InvalidOption err =>
      upgrade env = None
      /\ exists msg reason,
          readJSON env = inl msg
          /\ validatePingOptions (mergeDefaults msg) = Some reason
          /\ err = ("invalid ping options: " ++ reason)%string
  | _ =>
      upgrade env = None
      /\ exists msg opts,
          readJSON env = inl msg
          /\ resolvePingOptions msg = (opts, None)
          /\ stop_cause opts (ticks env) o
  end.

(** The loop of a session when its ticker starts, nothing otherwise. *)
Definition loop_or_nothing (opts : PingOptions.t) (address : string)
    (ticks : list TickEnv) : list Event * Outcome :=
  match NewTicker (GoInt.mul (PingOptions.Wait opts) Second) with
  | None => ([], Panicked "non-positive interval for NewTicker")
  | Some _ => loop opts address ticks 0
  end.

(** The count leaves room for [n] ticks and one more. *)
Definition count_allows (opts : PingOptions.t) (n : nat) : Prop :=
  PingOptions.Count opts <= 0
  \/ Z.of_nat n < PingOptions.Count opts <= GoInt.max_int.

(** [n] if [b], 0 otherwise. *)
Definition only_if (b : bool) (n : nat) : nat := if b then n else O.

(** What the probe of a tick measured: the milliseconds elapsed, or 0
    when it failed. *)
Definition measured (e : TickEnv) : Q :=
  match get e with
  | inl us => Qmake us 1000
  | inr _ => 0%Q
  end.

(** ** Concrete messages and environments *)

(** Flood with the interval [w]. *)
Definition flood_with_interval (w : Z) : PingMessage.t :=
  PingMessage.request "example.com" None (Some w) None None None None
                      (Some true) None.

(** The time to live [ttl], and nothing else. *)
Definition with_ttl (ttl : Z) : PingMessage.t :=
  PingMessage.request "example.com" None None (Some ttl) None None None
                      None None.

(** A tick whose probe is answered after 1.5 ms and whose channel
    takes what is written. *)
Definition responsive (n : Z) : TickEnv :=
  {| now := n; get := inl 1500; writeJSON := None; writeControl := None |}.

(** A tick whose probe fails, on a channel that takes what is written. *)
Definition unanswered (n : Z) : TickEnv :=
  {| now := n; get := inr "connection refused"; writeJSON := None;
     writeControl := None |}.

(** An upgraded connection on which [msg] is read. *)
Definition serve (msg : PingMessage.t) (ticks : list TickEnv) : Env :=
  {| upgrade := None; readJSON := inl msg; ticks := ticks |}.

(** A tick whose probe is answered and whose report cannot be written. *)
Definition broken_pipe (n : Z) : TickEnv :=
  {| now := n; get := inl 1500; writeJSON := Some "broken pipe";
     writeControl := None |}.

(** A tick whose report is written and whose liveness check fails. *)
Definition peer_gone (n : Z) : TickEnv :=
  {| now := n; get := inl 1500; writeJSON := None;
     writeControl := Some "i/o timeout" |}.

(** Count 3 with the interval 0. *)
Definition three_at_interval_zero : PingMessage.t :=
  PingMessage.request "example.com" (Some 3) (Some 0) None None None None
                      None None.

(** Count 3 with the default interval. *)
Definition three_pings : PingMessage.t :=
  PingMessage.request "example.com" (Some 3) None None None None None
                      None None.

(** A sweep from 10 to 20 in steps of [incr]. *)
Definition sweep_10_20 (incr : Z) : PingMessage.t :=
  PingMessage.request "example.com" None None None (Some 10) (Some 20)
                      (Some incr) None None.

(** A quiet session without a count. *)
Definition quiet_pings : PingMessage.t :=
  PingMessage.request "example.com" None None None None None None
                      None (Some true).

(** A session without a count, with every option at its default. *)
Definition plain_pings : PingMessage.t :=
  PingMessage.request "example.com" None None None None None None
                      None None.

(** A quiet session with the count 3. *)
Definition three_quiet_pings : PingMessage.t :=
  PingMessage.request "example.com" (Some 3) None None None None None
                      None (Some true).

(** A preload count of -1, and nothing else. *)
Definition negative_preload : PingMessage.t :=
  {| PingMessage.Address := "example.com";
     PingMessage.Adaptive := None; PingMessage.Audible := None;
     PingMessage.Debug := None; PingMessage.Flood := None;
     PingMessage.Numeric := None; PingMessage.Quiet := None;
     PingMessage.Timestamp := None; PingMessage.Verbose := None;
     PingMessage.Count := None; PingMessage.SweepMaxSize := None;
     PingMessage.SweepMinSize := None; PingMessage.SweepIncrSize := None;
     PingMessage.Wait := None; PingMessage.Preload := Some (-1);
     PingMessage.Mask := None; PingMessage.TTL := None;
     PingMessage.Pattern := None; PingMessage.SourceAddr := None;
     PingMessage.PacketSize := None; PingMessage.Timeout := None;
     PingMessage.WaitTime := None; PingMessage.TOS := None |}.

(** A sweep over the whole range of [int], with the count 3. *)
Definition sweep_whole_range : PingMessage.t :=
  PingMessage.request "example.com" (Some 3) None None
                      (Some GoInt.min_int) (Some GoInt.max_int) (Some 1)
                      None None.

(** The report of the fourth tick of the sweep from 10 to 20 in steps
    of 5, on ticks that are all [responsive]. *)
Definition fourth_sweep_report : PongMessage.t :=
  {| PongMessage.Type_ := "pong";
     PongMessage.Timestamp := 4;
     PongMessage.Bytes := 14;
     PongMessage.Sequence := 3;
     PongMessage.Address := "http://example.com";
     PongMessage.Latency := Qmake 1500 1000;
     PongMessage.Success := true |}.

(* ================================================================== *)
(** * Part III: properties *)
(* ================================================================== *)

(** ** The option resolver *)

Lemma resolve_valid (msg : PingMessage.t) :
  validatePingOptions (mergeDefaults msg) = None ->
  resolvePingOptions msg =
    (if PingOptions.IsFlood (mergeDefaults msg)
     then PingOptions.with_Wait (mergeDefaults msg) 1
     else mergeDefaults msg, None).
Proof.
  intros Hv. unfold resolvePingOptions. rewrite Hv. reflexivity.
Qed.

Lemma resolve_invalid (msg : PingMessage.t) (err : string) :
  validatePingOptions (mergeDefaults msg) = Some err ->
  resolvePingOptions msg =
    (mergeDefaults msg, Some ("invalid ping options: " ++ err)%string).
Proof.
  intros Hv. unfold resolvePingOptions. rewrite Hv. reflexivity.
Qed.

(** C9: a message with every optional field absent resolves, without
    error, to the built-in defaults (count 0, interval 1, time to live
    64, packet size 56, timeout 5, wait time 10, type of service 0,
    preload 0, sweep bounds and increment 0, empty strings, every flag
    false), and these defaults pass validation. *)
Theorem bare_message_resolves_to_defaults (address : string) :
  resolvePingOptions (PingMessage.bare address) = (builtinDefaults, None)
  /\ validatePingOptions builtinDefaults = None.
Proof.
  split; reflexivity.
Qed.

(** C3: when the message sets flood and its merged options pass
    validation, the resolved interval is 1 whatever interval was
    supplied, and nothing else changes; the override comes after
    validation: options that fail validation are rejected with the
    validator's error and keep the interval they were validated with. *)
Theorem flood_forces_minimum_interval (msg : PingMessage.t) :
  PingMessage.Flood msg = Some true ->
  (validatePingOptions (mergeDefaults msg) = None ->
   snd (resolvePingOptions msg) = None
   /\ PingOptions.Wait (fst (resolvePingOptions msg)) = 1
   /\ fst (resolvePingOptions msg)
      = PingOptions.with_Wait (mergeDefaults msg) 1)
  /\ (forall err,
        validatePingOptions (mergeDefaults msg) = Some err ->
        snd (resolvePingOptions msg)
          = Some ("invalid ping options: " ++ err)%string
        /\ PingOptions.Wait (fst (resolvePingOptions msg))
           = getOrDefault (PingMessage.Wait msg) defaultWait).
Proof.
  intros Hflood.
  assert (Hf : PingOptions.IsFlood (mergeDefaults msg) = true)
    by (simpl; rewrite Hflood; reflexivity).
  split.
  - intros Hv. rewrite (resolve_valid _ Hv), Hf. simpl. auto.
  - intros err Hv. rewrite (resolve_invalid _ _ Hv). simpl. auto.
Qed.

Lemma flood_forces_minimum_interval_witness :
  PingOptions.Wait (fst (resolvePingOptions (flood_with_interval 5))) = 1
  /\ snd (resolvePingOptions (flood_with_interval (-5)))
     = Some "invalid ping options: wait interval cannot be negative"
  /\ PingOptions.Wait (fst (resolvePingOptions (flood_with_interval (-5))))
     = -5.
Proof.
  destruct (flood_forces_minimum_interval (flood_with_interval 5) eq_refl)
    as [Hok _].
  destruct (flood_forces_minimum_interval (flood_with_interval (-5)) eq_refl)
    as [_ Hbad].
  destruct (Hok eq_refl) as (_ & Hw & _).
  destruct (Hbad "wait interval cannot be negative" eq_refl) as (He & Hw').
  split; [exact Hw | split; [exact He | exact Hw']].
Defined.

(** What validation accepts, as inequalities. *)
Lemma validate_accepts_iff (o : PingOptions.t) :
  validatePingOptions o = None <->
  0 <= PingOptions.Count o /\
  0 <= PingOptions.Wait o /\
  1 <= PingOptions.TTL o <= 255 /\
  0 <= PingOptions.PacketSize o /\
  (0 < PingOptions.SweepMaxSize o ->
   PingOptions.SweepMinSize o < PingOptions.SweepMaxSize o
   /\ 0 < PingOptions.SweepIncrSize o) /\
  0 < PingOptions.Timeout o /\
  0 < PingOptions.WaitTime o /\
  0 <= PingOptions.TOS o <= 255.
Proof.
  unfold validatePingOptions, reject.
  rewrite !Z.gtb_ltb, !Z.geb_leb.
  repeat match goal with
         | |- context [?a <? ?b] => destruct (Z.ltb_spec a b)
         | |- context [?a <=? ?b] => destruct (Z.leb_spec a b)
         end; simpl;
    (split; [ first [ discriminate | intros _; lia ]
            | first [ reflexivity | intros; exfalso; lia ] ]).
Qed.

Lemma getOrDefault_elim {T : Type} (P : T -> Prop) (value : option T)
    (defaultValue : T) :
  P defaultValue -> (forall v, value = Some v -> P v) ->
  P (getOrDefault value defaultValue).
Proof.
  destruct value as [v|]; simpl; auto.
Qed.

Lemma getOrDefault_honours {T : Type} (value : option T) (defaultValue : T) :
  honours value (getOrDefault value defaultValue).
Proof.
  intros v ->. reflexivity.
Qed.

Lemma mergeDefaults_honours (msg : PingMessage.t) :
  honours_all msg (mergeDefaults msg).
Proof.
  unfold honours_all, honours_but_interval, mergeDefaults; simpl.
  repeat split; apply getOrDefault_honours.
Qed.

Lemma in_range_validates (msg : PingMessage.t) :
  present_in_range msg -> validatePingOptions (mergeDefaults msg) = None.
Proof.
  intros (Hc & Hw & Httl & Hps & Hto & Hwt & Htos & Hsweep).
  apply validate_accepts_iff. simpl.
  unfold defaultCount, defaultWait, defaultTTL, defaultPacketSize,
    defaultTimeout, defaultWaitTime, defaultTOS, defaultSweepMin,
    defaultSweepMax, defaultSweepIncr.
  repeat split;
    try (apply getOrDefault_elim; [lia | assumption]);
    try (apply getOrDefault_elim; [lia | intros v Hv; specialize (Httl v Hv); lia]);
    try (apply getOrDefault_elim; [lia | intros v Hv; specialize (Htos v Hv); lia]);
    try (apply Hsweep; assumption).
Qed.

(** C4, as the code has it: a message whose present fields are all in
    range resolves without error, and every resolved field equals the
    supplied value, except the interval of a flood session, which is 1;
    without flood the interval equals the supplied value too. *)
Theorem in_range_message_resolves (msg : PingMessage.t) :
  present_in_range msg ->
  snd (resolvePingOptions msg) = None
  /\ honours_but_interval msg (fst (resolvePingOptions msg))
  /\ (PingOptions.IsFlood (fst (resolvePingOptions msg)) = false ->
      honours (PingMessage.Wait msg)
              (PingOptions.Wait (fst (resolvePingOptions msg))))
  /\ (PingOptions.IsFlood (fst (resolvePingOptions msg)) = true ->
      PingOptions.Wait (fst (resolvePingOptions msg)) = 1).
Proof.
  intros Hrange.
  rewrite (resolve_valid _ (in_range_validates _ Hrange)).
  destruct (mergeDefaults_honours msg) as [Hwait Hrest].
  destruct (PingOptions.IsFlood (mergeDefaults msg)) eqn:Hflood;
    cbn [fst snd].
  - split; [reflexivity |]. split; [exact Hrest |].
    split; [| reflexivity].
    intros Hoff.
    change (PingOptions.IsFlood (mergeDefaults msg) = false) in Hoff.
    congruence.
  - split; [reflexivity |]. split; [exact Hrest |].
    split; [intros _; exact Hwait | congruence].
Qed.

Lemma flood_with_interval_in_range :
  present_in_range (flood_with_interval 5).
Proof.
  unfold present_in_range, flood_with_interval; simpl.
  repeat split; try discriminate; try lia;
    intros v Hv; inversion Hv; lia.
Qed.

Lemma in_range_message_resolves_witness :
  snd (resolvePingOptions (flood_with_interval 5)) = None
  /\ PingOptions.IsFlood (fst (resolvePingOptions (flood_with_interval 5)))
     = true.
Proof.
  destruct (in_range_message_resolves (flood_with_interval 5)
              flood_with_interval_in_range) as (Hok & Hrest & _ & _).
  split; [exact Hok |].
  destruct Hrest as (_ & _ & _ & _ & _ & _ & _ & _ & _ & _ & _ & _ & _
                     & _ & _ & _ & Hflood & _).
  exact (Hflood true eq_refl).
Defined.

(** C4 as stated fails: with flood set and the in-range interval 5
    supplied, resolution succeeds but the resolved interval is 1. *)
Lemma in_range_message_not_honoured_exactly :
  present_in_range (flood_with_interval 5)
  /\ snd (resolvePingOptions (flood_with_interval 5)) = None
  /\ ~ honours_all (flood_with_interval 5)
                   (fst (resolvePingOptions (flood_with_interval 5))).
Proof.
  split; [exact flood_with_interval_in_range |].
  split; [reflexivity |].
  intros [Hwait _]. specialize (Hwait 5 eq_refl). discriminate Hwait.
Qed.

(** Each rule is the negation of the validator's test for it. *)
Lemma between_negb (lo hi t : Z) :
  (lo <=? t) && (t <=? hi) = negb ((t <? lo) || (hi <? t)).
Proof.
  destruct (Z.leb_spec lo t), (Z.leb_spec t hi), (Z.ltb_spec t lo),
    (Z.ltb_spec hi t); simpl; try reflexivity; lia.
Qed.

Lemma rule_holds_validator (r : Rule) (o : PingOptions.t) :
  rule_holds r o =
  match r with
  | CountRule => negb (PingOptions.Count o <? 0)
  | IntervalRule => negb (PingOptions.Wait o <? 0)
  | TimeToLiveRule =>
      negb ((PingOptions.TTL o <=? 0) || (PingOptions.TTL o >? 255))
  | PacketSizeRule => negb (PingOptions.PacketSize o <? 0)
  | SweepRule =>
      if PingOptions.SweepMaxSize o >? 0
      then negb (PingOptions.SweepMinSize o >=? PingOptions.SweepMaxSize o)
           && negb (PingOptions.SweepIncrSize o <=? 0)
      else true
  | TimeoutRule => negb (PingOptions.Timeout o <=? 0)
  | WaitTimeRule => negb (PingOptions.WaitTime o <=? 0)
  | TypeOfServiceRule =>
      negb ((PingOptions.TOS o <? 0) || (PingOptions.TOS o >? 255))
  end.
Proof.
  destruct r; unfold rule_holds;
    rewrite ?Z.gtb_ltb, ?Z.geb_leb, ?between_negb;
    rewrite <- ?Z.ltb_antisym, <- ?Z.leb_antisym; try reflexivity.
  replace (PingOptions.TTL o <=? 0) with (PingOptions.TTL o <? 1);
    [reflexivity |].
  destruct (Z.ltb_spec (PingOptions.TTL o) 1),
    (Z.leb_spec (PingOptions.TTL o) 0); try reflexivity; lia.
Qed.

(** The validator reports the first rule of the order that fails. *)
Lemma validate_reports_first_failing (o : PingOptions.t) :
  match validatePingOptions o with
  | None => first_failing o = None
  | Some err => rule_of_error err = first_failing o
  end.
Proof.
  unfold first_failing, rule_order, find.
  rewrite !rule_holds_validator.
  unfold validatePingOptions, reject.
  repeat match goal with
         | |- context [if ?b then _ else _] =>
             destruct b; cbn [negb orb andb]; try reflexivity
         end.
Qed.

Lemma every_rule_in_order (r : Rule) : In r rule_order.
Proof.
  destruct r; simpl; auto 10.
Qed.

Lemma broken_rule_first_failing (o : PingOptions.t) (r : Rule) :
  rule_holds r o = false -> exists r0, first_failing o = Some r0.
Proof.
  intros Hr. unfold first_failing.
  destruct (find (fun r => negb (rule_holds r o)) rule_order) as [r0|] eqn:Hfind.
  - exists r0. reflexivity.
  - pose proof (find_none _ _ Hfind r (every_rule_in_order r)) as Hnone.
    simpl in Hnone. rewrite Hr in Hnone. discriminate.
Qed.

Lemma handler_rejects_invalid (env : Env) (msg : PingMessage.t)
    (err : string) :
  upgrade env = None -> readJSON env = inl msg ->
  validatePingOptions (mergeDefaults msg) = Some err ->
  PingHandler env
    = ([Close], InvalidOption ("invalid ping options: " ++ err)%string).
Proof.
  intros Hup Hread Hv. unfold PingHandler.
  rewrite Hup, Hread, (resolve_invalid _ _ Hv). reflexivity.
Qed.

(** C5: when the merged options of a message break some rule, the
    validator's error names the first rule broken in the order count,
    interval, time to live, packet size, sweep, timeout, wait time, type
    of service; resolution returns that error, wrapped, with the merged
    options untouched; and the handler ends with [InvalidOption] having
    done nothing but close the channel. *)
Theorem out_of_range_rejected (msg : PingMessage.t) (r : Rule) :
  rule_holds r (mergeDefaults msg) = false ->
  exists r0 err,
    first_failing (mergeDefaults msg) = Some r0
    /\ validatePingOptions (mergeDefaults msg) = Some err
    /\ rule_of_error err = Some r0
    /\ resolvePingOptions msg
       = (mergeDefaults msg, Some ("invalid ping options: " ++ err)%string)
    /\ forall env,
         upgrade env = None -> readJSON env = inl msg ->
         PingHandler env
           = ([Close], InvalidOption ("invalid ping options: " ++ err)%string).
Proof.
  intros Hr.
  destruct (broken_rule_first_failing _ _ Hr) as [r0 Hfirst].
  pose proof (validate_reports_first_failing (mergeDefaults msg)) as Hv.
  destruct (validatePingOptions (mergeDefaults msg)) as [err|] eqn:Hval.
  - exists r0, err. repeat split.
    + exact Hfirst.
    + congruence.
    + apply resolve_invalid. exact Hval.
    + intros env Hup Hread.
      apply (handler_rejects_invalid env msg err); assumption.
  - congruence.
Qed.

Lemma out_of_range_rejected_witness :
  exists r0 err,
    first_failing (mergeDefaults (with_ttl 256)) = Some r0
    /\ validatePingOptions (mergeDefaults (with_ttl 256)) = Some err
    /\ rule_of_error err = Some r0
    /\ resolvePingOptions (with_ttl 256)
       = (mergeDefaults (with_ttl 256),
          Some ("invalid ping options: " ++ err)%string)
    /\ forall env,
         upgrade env = None -> readJSON env = inl (with_ttl 256) ->
         PingHandler env
           = ([Close], InvalidOption ("invalid ping options: " ++ err)%string).
Proof.
  apply (out_of_range_rejected (with_ttl 256) TimeToLiveRule).
  reflexivity.
Defined.

(** The two ends of the time-to-live range, 0 and 256, are rejected
    with the time-to-live error. *)
Example ttl_out_of_range :
  snd (resolvePingOptions (with_ttl 0))
    = Some "invalid ping options: TTL must be between 1 and 255"
  /\ snd (resolvePingOptions (with_ttl 256))
     = Some "invalid ping options: TTL must be between 1 and 255"
  /\ snd (resolvePingOptions (with_ttl 1)) = None
  /\ snd (resolvePingOptions (with_ttl 255)) = None.
Proof.
  repeat split; reflexivity.
Qed.

(** The validator has no rule for the preload count: a negative one
    resolves, and the session launches no warm-up probe. *)
Example negative_preload_accepted :
  resolvePingOptions negative_preload
  = (PingOptions.mk 0 1 64 56 5 10 0 (-1) 0 0 0 "" "" ""
                    false false false false false false false false, None)
  /\ first_failing (mergeDefaults negative_preload) = None
  /\ preload (fst (resolvePingOptions negative_preload))
             "http://example.com" = [].
Proof.
  repeat split.
Qed.

(** ** Address normalisation *)

Lemma prefix_nil (s : string) : String.prefix "" s = true.
Proof.
  destruct s; reflexivity.
Qed.

Lemma HasPrefix_http_prepended (a : string) :
  HasPrefix ("http://" ++ a)%string "http://" = true.
Proof.
  unfold HasPrefix. simpl. apply prefix_nil.
Qed.

Lemma formatAddress_keeps (a : string) :
  HasPrefix a "http://" = true \/ HasPrefix a "https://" = true ->
  formatAddress a = a.
Proof.
  unfold formatAddress. intros [-> | ->]; simpl; [reflexivity |].
  rewrite andb_false_r. reflexivity.
Qed.

Lemma formatAddress_prepends (a : string) :
  HasPrefix a "http://" = false /\ HasPrefix a "https://" = false ->
  formatAddress a = ("http://" ++ a)%string.
Proof.
  unfold formatAddress. intros [-> ->]. reflexivity.
Qed.

(** C10: normalising twice is normalising once; an address that begins
    with "http://" or "https://" is returned as it is, any other with
    "http://" in front; both revisions of the function agree. *)
Theorem formatAddress_idempotent (a : string) :
  formatAddress (formatAddress a) = formatAddress a
  /\ (HasPrefix a "http://" = true \/ HasPrefix a "https://" = true ->
      formatAddress a = a)
  /\ (HasPrefix a "http://" = false /\ HasPrefix a "https://" = false ->
      formatAddress a = ("http://" ++ a)%string)
  /\ Legacy.formatAddress a = formatAddress a.
Proof.
  split;
    [| split; [apply formatAddress_keeps
              | split; [apply formatAddress_prepends | reflexivity]]].
  destruct (HasPrefix a "http://") eqn:Hhttp.
  - rewrite (formatAddress_keeps a) by (left; exact Hhttp).
    apply formatAddress_keeps. left. exact Hhttp.
  - destruct (HasPrefix a "https://") eqn:Hhttps.
    + rewrite (formatAddress_keeps a) by (right; exact Hhttps).
      apply formatAddress_keeps. right. exact Hhttps.
    + rewrite (formatAddress_prepends a) by (split; assumption).
      apply formatAddress_keeps. left. apply HasPrefix_http_prepended.
Qed.

Lemma formatAddress_idempotent_witness :
  formatAddress "https://example.com" = "https://example.com"
  /\ formatAddress "example.com" = "http://example.com"
  /\ formatAddress (formatAddress "example.com") = formatAddress "example.com".
Proof.
  destruct (formatAddress_idempotent "https://example.com") as (_ & Hkeep & _).
  destruct (formatAddress_idempotent "example.com") as (Hidem & _ & Hadd & _).
  split; [apply Hkeep; right; reflexivity |].
  split; [apply Hadd; split; reflexivity | exact Hidem].
Defined.

(** ** Machine integers *)

Lemma wrap_in_range (z : Z) : GoInt.in_range z -> GoInt.wrap z = z.
Proof.
  unfold GoInt.in_range, GoInt.min_int, GoInt.max_int, GoInt.wrap.
  intros Hz. rewrite Z.mod_small; lia.
Qed.

Lemma wrap_add_l (a b : Z) : GoInt.wrap (GoInt.wrap a + b) = GoInt.wrap (a + b).
Proof.
  unfold GoInt.wrap. f_equal.
  replace ((a + 2 ^ 63) mod 2 ^ 64 - 2 ^ 63 + b + 2 ^ 63)
    with ((a + 2 ^ 63) mod 2 ^ 64 + b) by lia.
  rewrite Zplus_mod_idemp_l. f_equal. lia.
Qed.

(** Incrementing and decrementing gives the counter back, wrapped. *)
Lemma sub_add_one (s : Z) : GoInt.sub (GoInt.add s 1) 1 = GoInt.wrap s.
Proof.
  unfold GoInt.sub, GoInt.add.
  replace (GoInt.wrap (s + 1) - 1) with (GoInt.wrap (s + 1) + (-1)) by lia.
  rewrite wrap_add_l. f_equal. lia.
Qed.

(** ** Event lists *)

Lemma reports_app (evs evs' : list Event) :
  reports (evs ++ evs') = reports evs ++ reports evs'.
Proof.
  induction evs as [|ev evs IH]; [reflexivity |].
  destruct ev as [| | msg [err|] | | |]; simpl; rewrite IH; reflexivity.
Qed.

Lemma measurements_app (evs evs' : list Event) :
  measurements (evs ++ evs') = (measurements evs + measurements evs')%nat.
Proof.
  induction evs as [|ev evs IH]; [reflexivity |].
  destruct ev; simpl; rewrite IH; reflexivity.
Qed.

Lemma checks_app (evs evs' : list Event) :
  checks (evs ++ evs') = (checks evs + checks evs')%nat.
Proof.
  induction evs as [|ev evs IH]; [reflexivity |].
  destruct ev; simpl; rewrite IH; reflexivity.
Qed.

Lemma without_writes_app (evs evs' : list Event) :
  without_writes (evs ++ evs') = without_writes evs ++ without_writes evs'.
Proof.
  induction evs as [|ev evs IH]; [reflexivity |].
  destruct ev; simpl; rewrite IH; reflexivity.
Qed.

Lemma preload_silent (opts : PingOptions.t) (address : string) :
  reports (preload opts address) = []
  /\ measurements (preload opts address) = O
  /\ checks (preload opts address) = O
  /\ without_writes (preload opts address) = preload opts address.
Proof.
  unfold preload. destruct (PingOptions.Preload opts >? 0); [| auto].
  induction (Z.to_nat (PingOptions.Preload opts)) as [|n (Hr & Hm & Hc & Hw)];
    simpl; [auto |].
  rewrite Hw. auto.
Qed.

(** ** One tick *)

(** Unfolds a tick and splits on everything it branches on. *)
Ltac tick_cases opts e s :=
  unfold tick, measureLatency, sendPongMessage, checkConnection, bind, emit,
    ret, stop;
  destruct ((PingOptions.Count opts >? 0) && (s >=? PingOptions.Count opts));
  [| destruct (currentPacketSize opts (GoInt.add s 1));
     [ destruct (get e); destruct (PingOptions.IsQuiet opts);
       destruct (writeJSON e); destruct (PingOptions.IsFlood opts);
       destruct (writeControl e) | ] ];
  cbn.

(** A quiet tick writes no report, and follows its probe with a
    liveness check unless the session floods. *)
Lemma tick_quiet (opts : PingOptions.t) (address : string) (e : TickEnv)
    (s : Z) :
  PingOptions.IsQuiet opts = true ->
  reports (fst (tick opts address e s)) = []
  /\ without_writes (fst (tick opts address e s)) = fst (tick opts address e s)
  /\ (PingOptions.IsFlood opts = false ->
      checks (fst (tick opts address e s))
      = measurements (fst (tick opts address e s))).
Proof.
  intros Hq. tick_cases opts e s; try discriminate Hq;
    repeat split; try reflexivity; discriminate.
Qed.

(** What a tick of a session that is not quiet writes. *)
Lemma tick_loud (opts : PingOptions.t) (address : string) (e : TickEnv)
    (s : Z) :
  PingOptions.IsQuiet opts = false ->
  match reports (fst (tick opts address e s)) with
  | [] => exists o, snd (tick opts address e s) = inl o
  | [p] =>
      PongMessage.Sequence p = GoInt.wrap s
      /\ currentPacketSize opts (GoInt.add s 1) = Some (PongMessage.Bytes p)
      /\ PongMessage.Success p = probe_ok e
      /\ (probe_ok e = false -> PongMessage.Latency p = 0%Q)
      /\ PongMessage.Address p = address
      /\ PongMessage.Type_ p = "pong"
      /\ PongMessage.Timestamp p = now e
      /\ (forall s', snd (tick opts address e s) = inr s' ->
                     s' = GoInt.add s 1)
  | _ => False
  end.
Proof.
  intros Hq. unfold probe_ok.
  tick_cases opts e s; try discriminate Hq; eauto;
    rewrite ?sub_add_one;
    repeat split; try reflexivity; try discriminate;
    intros s' Hs'; inversion Hs'; reflexivity.
Qed.

(** ** The loop *)

Lemma loop_cons (opts : PingOptions.t) (address : string) (e : TickEnv)
    (ticks : list TickEnv) (s : Z) :
  loop opts address (e :: ticks) s =
  match snd (tick opts address e s) with
  | inl o => (fst (tick opts address e s), o)
  | inr s' =>
      (fst (tick opts address e s) ++ fst (loop opts address ticks s'),
       snd (loop opts address ticks s'))
  end.
Proof.
  simpl. destruct (tick opts address e s) as [evs [o|s']]; simpl;
    [reflexivity |].
  destruct (loop opts address ticks s'); reflexivity.
Qed.

Section Loop.

Variable opts : PingOptions.t.
Variable address : string.

(** A quiet loop writes no report at all. *)
Lemma loop_quiet (ticks : list TickEnv) (s : Z) :
  PingOptions.IsQuiet opts = true ->
  reports (fst (loop opts address ticks s)) = []
  /\ without_writes (fst (loop opts address ticks s))
     = fst (loop opts address ticks s)
  /\ (PingOptions.IsFlood opts = false ->
      checks (fst (loop opts address ticks s))
      = measurements (fst (loop opts address ticks s))).
Proof.
  intros Hq. revert s.
  induction ticks as [|e ticks IH]; intros s; [simpl; auto |].
  rewrite loop_cons.
  destruct (tick_quiet opts address e s Hq) as (Hr & Hw & Hc).
  destruct (snd (tick opts address e s)) as [o|s']; cbn [fst snd];
    [auto |].
  destruct (IH s') as (Hr' & Hw' & Hc').
  rewrite reports_app, without_writes_app, checks_app, measurements_app.
  rewrite Hr, Hr', Hw, Hw'. repeat split; try reflexivity.
  intros Hf. rewrite (Hc Hf), (Hc' Hf). reflexivity.
Qed.

(** The [i]-th report of a loop that starts with the counter at [s]
    belongs to the [i]-th tick: it carries the sequence number
    [s + i], the byte size computed for the counter [s + i + 1], and
    the result of that tick's probe. *)
Lemma loop_nth_report (ticks : list TickEnv) (s : Z) (i : nat)
    (p : PongMessage.t) :
  nth_error (reports (fst (loop opts address ticks s))) i = Some p ->
  exists e,
    nth_error ticks i = Some e
    /\ PongMessage.Sequence p = GoInt.wrap (s + Z.of_nat i)
    /\ currentPacketSize opts (GoInt.wrap (s + Z.of_nat i + 1))
       = Some (PongMessage.Bytes p)
    /\ PongMessage.Success p = probe_ok e
    /\ (probe_ok e = false -> PongMessage.Latency p = 0%Q)
    /\ PongMessage.Address p = address.
Proof.
  destruct (PingOptions.IsQuiet opts) eqn:Hq.
  { destruct (loop_quiet ticks s Hq) as (Hr & _). rewrite Hr.
    destruct i; discriminate. }
  revert s i.
  induction ticks as [|e ticks IH]; intros s i.
  { destruct i; discriminate. }
  rewrite loop_cons.
  pose proof (tick_loud opts address e s Hq) as Hloud.
  destruct (reports (fst (tick opts address e s))) as [|p0 [|p1 rest]] eqn:Hrep;
    [| | contradiction].
  - destruct Hloud as [o Ho]. rewrite Ho. cbn [fst]. rewrite Hrep.
    destruct i; discriminate.
  - destruct Hloud as (Hseq & Hsize & Hsucc & Hlat & Haddr & _ & _ & Hnext).
    assert (Hhead : i = O -> Some p0 = Some p ->
              exists e0,
                nth_error (e :: ticks) i = Some e0
                /\ PongMessage.Sequence p = GoInt.wrap (s + Z.of_nat i)
                /\ currentPacketSize opts (GoInt.wrap (s + Z.of_nat i + 1))
                   = Some (PongMessage.Bytes p)
                /\ PongMessage.Success p = probe_ok e0
                /\ (probe_ok e0 = false -> PongMessage.Latency p = 0%Q)
                /\ PongMessage.Address p = address).
    { intros -> Hp. inversion Hp; subst p0. exists e.
      simpl. rewrite Z.add_0_r. auto 10. }
    destruct (snd (tick opts address e s)) as [o|s'] eqn:Hsnd; cbn [fst].
    + rewrite Hrep. destruct i as [|i]; [auto |].
      destruct i; discriminate.
    + rewrite reports_app, Hrep. destruct i as [|i]; [auto |].
      simpl. intros Hp. rewrite (Hnext s' eq_refl) in Hp.
      destruct (IH _ _ Hp) as (e0 & He0 & Hs0 & Hb0 & Hrest).
      exists e0. split; [exact He0 |].
      unfold GoInt.add in Hs0, Hb0.
      rewrite wrap_add_l in Hs0.
      replace (GoInt.wrap (s + 1) + Z.of_nat i + 1)
        with (GoInt.wrap (s + 1) + (Z.of_nat i + 1)) in Hb0 by lia.
      rewrite wrap_add_l in Hb0.
      replace (s + Z.pos (Pos.of_succ_nat i)) with (s + 1 + Z.of_nat i)
        by lia.
      replace (s + 1 + Z.of_nat i + 1) with (s + 1 + (Z.of_nat i + 1))
        by lia.
      auto.
Qed.

End Loop.

(** ** Count exhaustion *)

Lemma counting_cons (from : Z) (n : nat) :
  counting from (S n) = from :: counting (from + 1) n.
Proof.
  unfold counting. simpl. rewrite Z.add_0_r. f_equal.
  rewrite <- seq_shift, map_map. apply map_ext. intros i. lia.
Qed.

Lemma currentPacketSize_total (opts : PingOptions.t) (k : Z) :
  sweep_span_nonzero opts -> currentPacketSize opts k <> None.
Proof.
  unfold sweep_span_nonzero, currentPacketSize, GoInt.rem. intros Hspan.
  destruct (Z.gtb_spec (PingOptions.SweepMaxSize opts) 0) as [Hpos|_];
    [| discriminate].
  destruct (Z.eqb_spec
              (GoInt.add (GoInt.sub (PingOptions.SweepMaxSize opts)
                                    (PingOptions.SweepMinSize opts)) 1) 0)
    as [Hzero|_]; [| discriminate].
  exfalso. apply Hspan; [lia | exact Hzero].
Qed.

Lemma tick_count_reached (opts : PingOptions.t) (address : string)
    (e : TickEnv) (s : Z) :
  0 < PingOptions.Count opts -> PingOptions.Count opts <= s ->
  tick opts address e s = ([], inl CountExhausted).
Proof.
  intros Hc Hs. unfold tick.
  replace (PingOptions.Count opts >? 0) with true
    by (symmetry; apply Z.gtb_lt; lia).
  replace (s >=? PingOptions.Count opts) with true
    by (symmetry; apply Z.geb_le; lia).
  reflexivity.
Qed.

(** A tick below the count on which the channel takes what is written
    goes on to the next one after exactly one measurement. *)
Lemma tick_goes_on (opts : PingOptions.t) (address : string) (e : TickEnv)
    (s : Z) :
  (PingOptions.Count opts >? 0) && (s >=? PingOptions.Count opts) = false ->
  currentPacketSize opts (GoInt.add s 1) <> None ->
  channel_ok e ->
  snd (tick opts address e s) = inr (GoInt.add s 1)
  /\ measurements (fst (tick opts address e s)) = 1%nat.
Proof.
  intros Hcount Hsize [Hw Hc].
  unfold tick, measureLatency, sendPongMessage, checkConnection, bind, emit,
    ret, stop.
  rewrite Hcount, Hw, Hc.
  destruct (currentPacketSize opts (GoInt.add s 1)); [| contradiction].
  destruct (get e), (PingOptions.IsQuiet opts), (PingOptions.IsFlood opts);
    cbn; split; reflexivity.
Qed.

Section CountedLoop.

Variable opts : PingOptions.t.
Variable address : string.
Hypothesis count_positive : 0 < PingOptions.Count opts.
Hypothesis count_is_int : PingOptions.Count opts <= GoInt.max_int.
Hypothesis span_nonzero : sweep_span_nonzero opts.

(** From the counter [s], the loop measures [Count - s] times, writes
    the reports numbered [s] to [Count - 1] unless quiet, and stops on
    the tick after the last one, before measuring. *)
Lemma loop_counts (ticks : list TickEnv) (s : Z) :
  0 <= s <= PingOptions.Count opts ->
  Forall channel_ok ticks ->
  (Z.to_nat (PingOptions.Count opts - s) < List.length ticks)%nat ->
  snd (loop opts address ticks s) = CountExhausted
  /\ measurements (fst (loop opts address ticks s))
     = Z.to_nat (PingOptions.Count opts - s)
  /\ (PingOptions.IsQuiet opts = false ->
      map PongMessage.Sequence (reports (fst (loop opts address ticks s)))
      = counting s (Z.to_nat (PingOptions.Count opts - s))).
Proof.
  revert s.
  induction ticks as [|e ticks IH]; intros s Hs Hok Hlen;
    [simpl in Hlen; lia |].
  inversion Hok as [|e0 ticks0 He Hticks]; subst.
  destruct (Z.eq_dec s (PingOptions.Count opts)) as [Heq|Hneq].
  - simpl. rewrite tick_count_reached by lia.
    replace (PingOptions.Count opts - s) with 0 by lia.
    auto.
  - assert (Hbelow : (PingOptions.Count opts >? 0)
                     && (s >=? PingOptions.Count opts) = false).
    { apply andb_false_iff. right.
      destruct (Z.geb_spec s (PingOptions.Count opts)); [lia | reflexivity]. }
    assert (Hnext : GoInt.add s 1 = s + 1).
    { apply wrap_in_range. unfold GoInt.in_range, GoInt.min_int in *. lia. }
    destruct (tick_goes_on opts address e s Hbelow
                (currentPacketSize_total _ _ span_nonzero) He)
      as [Hgo Hone].
    rewrite loop_cons, Hgo. cbn [fst snd].
    rewrite Hnext in *.
    assert (Hsteps : Z.to_nat (PingOptions.Count opts - s)
                     = S (Z.to_nat (PingOptions.Count opts - (s + 1))))
      by lia.
    destruct (IH (s + 1)) as (Hend & Hmeas & Hseq);
      [lia | exact Hticks | simpl in Hlen; lia |].
    split; [exact Hend |]. split.
    + rewrite measurements_app, Hone, Hmeas, Hsteps. reflexivity.
    + intros Hq. rewrite reports_app, map_app, (Hseq Hq), Hsteps,
        counting_cons.
      pose proof (tick_loud opts address e s Hq) as Hloud.
      destruct (reports (fst (tick opts address e s))) as [|p [|p' rest]];
        [| | contradiction].
      * destruct Hloud as [o Ho]. congruence.
      * destruct Hloud as (Hp & _). simpl. rewrite Hp.
        rewrite wrap_in_range;
          [reflexivity | unfold GoInt.in_range, GoInt.min_int in *; lia].
Qed.

End CountedLoop.

(** ** Sessions *)

Lemma session_started (opts : PingOptions.t) (address : string)
    (ticks : list TickEnv) :
  ticker_starts opts ->
  session opts address ticks
  = (preload opts address ++ fst (loop opts address ticks 0),
     snd (loop opts address ticks 0)).
Proof.
  unfold ticker_starts, session, NewTicker. intros Hpos.
  destruct (Z.leb_spec (GoInt.mul (PingOptions.Wait opts) Second) 0); [lia |].
  destruct (loop opts address ticks 0); reflexivity.
Qed.

Lemma session_not_started (opts : PingOptions.t) (address : string)
    (ticks : list TickEnv) :
  ~ ticker_starts opts ->
  session opts address ticks
  = ([], Panicked "non-positive interval for NewTicker").
Proof.
  unfold ticker_starts, session, NewTicker. intros Hneg.
  destruct (Z.leb_spec (GoInt.mul (PingOptions.Wait opts) Second) 0);
    [reflexivity | lia].
Qed.

Lemma session_reports (opts : PingOptions.t) (address : string)
    (ticks : list TickEnv) :
  reports (fst (session opts address ticks)) = []
  \/ reports (fst (session opts address ticks))
     = reports (fst (loop opts address ticks 0)).
Proof.
  unfold session.
  destruct (NewTicker (GoInt.mul (PingOptions.Wait opts) Second));
    [| left; reflexivity].
  right. destruct (loop opts address ticks 0) as [evs o]. cbn [fst].
  rewrite reports_app.
  destruct (preload_silent opts address) as (-> & _). reflexivity.
Qed.

(** A session with the count [c > 0] whose ticker starts, whose sweep
    span is not zero as computed and whose channel takes every write
    measures exactly [c] times, writes the reports numbered 0 to [c - 1]
    unless quiet, and ends with [CountExhausted] on the tick after the
    [c]-th, before measuring again. *)
Theorem count_exhaustion (opts : PingOptions.t) (address : string)
    (ticks : list TickEnv) :
  0 < PingOptions.Count opts <= GoInt.max_int ->
  ticker_starts opts ->
  sweep_span_nonzero opts ->
  Forall channel_ok ticks ->
  (Z.to_nat (PingOptions.Count opts) < List.length ticks)%nat ->
  snd (session opts address ticks) = CountExhausted
  /\ measurements (fst (session opts address ticks))
     = Z.to_nat (PingOptions.Count opts)
  /\ (PingOptions.IsQuiet opts = false ->
      map PongMessage.Sequence (reports (fst (session opts address ticks)))
      = counting 0 (Z.to_nat (PingOptions.Count opts))).
Proof.
  intros [Hpos Hint] Hticker Hspan Hok Hlen.
  rewrite (session_started _ _ _ Hticker). cbn [fst snd].
  destruct (loop_counts opts address Hpos Hint Hspan ticks 0)
    as (Hend & Hmeas & Hseq);
    [lia | exact Hok | rewrite Z.sub_0_r; exact Hlen |].
  rewrite Z.sub_0_r in *.
  destruct (preload_silent opts address) as (Hr & Hm & _).
  rewrite measurements_app, reports_app, Hr, Hm.
  auto.
Qed.

(** The count 3 at the default interval meets every hypothesis of
    [count_exhaustion]. *)
Example count_exhaustion_three_pings :
  snd (session (fst (resolvePingOptions three_pings)) "http://example.com"
               (map responsive [1; 2; 3; 4]))
  = CountExhausted
  /\ measurements
       (fst (session (fst (resolvePingOptions three_pings))
                     "http://example.com" (map responsive [1; 2; 3; 4])))
     = 3%nat
  /\ map PongMessage.Sequence
         (reports (fst (session (fst (resolvePingOptions three_pings))
                                "http://example.com"
                                (map responsive [1; 2; 3; 4]))))
     = [0; 1; 2].
Proof.
  destruct (count_exhaustion (fst (resolvePingOptions three_pings))
              "http://example.com" (map responsive [1; 2; 3; 4]))
    as (Hend & Hmeas & Hseq).
  - vm_compute. split; [reflexivity | discriminate].
  - reflexivity.
  - intros Hon. vm_compute in Hon. discriminate Hon.
  - repeat constructor.
  - vm_compute. lia.
  - split; [exact Hend |]. split; [exact Hmeas |].
    apply Hseq. reflexivity.
Qed.

(** C1, at the interval 0: validation accepts the interval 0 (only a
    negative one is rejected), the ticker cannot be created with it, and
    the handler panics before the loop; a session with the count 3 and
    four ticks ahead of it writes no report and does not end with
    [CountExhausted]. *)
Theorem interval_zero_session_panics :
  validatePingOptions (mergeDefaults three_at_interval_zero) = None
  /\ PingOptions.Count (fst (resolvePingOptions three_at_interval_zero)) = 3
  /\ PingOptions.IsQuiet (fst (resolvePingOptions three_at_interval_zero))
     = false
  /\ PingHandler (serve three_at_interval_zero
                        (map responsive [1; 2; 3; 4]))
     = ([Close], Panicked "non-positive interval for NewTicker")
  /\ reports (fst (PingHandler (serve three_at_interval_zero
                                      (map responsive [1; 2; 3; 4])))) = [].
Proof.
  repeat split; vm_compute; reflexivity.
Qed.

(** The same count at the default interval of one second: three reports
    numbered 0, 1, 2, then [CountExhausted] on the fourth tick. *)
Example three_pings_session :
  map PongMessage.Sequence
      (reports (fst (PingHandler (serve three_pings
                                        (map responsive [1; 2; 3; 4])))))
  = [0; 1; 2]
  /\ measurements (fst (PingHandler (serve three_pings
                                           (map responsive [1; 2; 3; 4]))))
     = 3%nat
  /\ snd (PingHandler (serve three_pings (map responsive [1; 2; 3; 4])))
     = CountExhausted.
Proof.
  repeat split; vm_compute; reflexivity.
Qed.

(** A second way to the same end: the sweep bounds [min_int] and
    [max_int] pass validation, the span wraps to 0, and the first tick
    panics on the remainder before it measures. *)
Example sweep_span_wraps_to_zero :
  validatePingOptions (mergeDefaults sweep_whole_range) = None
  /\ PingHandler (serve sweep_whole_range (map responsive [1; 2; 3; 4]))
     = ([Close], Panicked "runtime error: integer divide by zero").
Proof.
  split; vm_compute; reflexivity.
Qed.

(** ** The sweep *)

Lemma currentPacketSize_fixed (opts : PingOptions.t) (sequence : Z) :
  PingOptions.SweepMaxSize opts <= 0 ->
  currentPacketSize opts sequence = Some (PingOptions.PacketSize opts).
Proof.
  intros Hoff. unfold currentPacketSize.
  destruct (Z.gtb_spec (PingOptions.SweepMaxSize opts) 0); [lia |].
  reflexivity.
Qed.

Lemma effectiveSize_fixed (opts : PingOptions.t) (k : Z) :
  PingOptions.SweepMaxSize opts <= 0 ->
  effectiveSize opts k = PingOptions.PacketSize opts.
Proof.
  intros Hoff. unfold effectiveSize.
  destruct (Z.leb_spec (PingOptions.SweepMaxSize opts) 0); [| lia].
  reflexivity.
Qed.

(** Where nothing wraps, the machine computes the size of the
    specification. *)
Lemma currentPacketSize_sweep (opts : PingOptions.t) (sequence k : Z) :
  0 < PingOptions.SweepMaxSize opts ->
  PingOptions.SweepMinSize opts < PingOptions.SweepMaxSize opts ->
  0 < PingOptions.SweepIncrSize opts ->
  GoInt.in_range (PingOptions.SweepMinSize opts) ->
  GoInt.in_range (PingOptions.SweepMaxSize opts) ->
  GoInt.sub sequence 1 = k - 1 ->
  0 <= k - 1 ->
  (k - 1) * PingOptions.SweepIncrSize opts <= GoInt.max_int ->
  PingOptions.SweepMaxSize opts - PingOptions.SweepMinSize opts + 1
    <= GoInt.max_int ->
  currentPacketSize opts sequence = Some (effectiveSize opts k).
Proof.
  intros Hon Hlt Hincr Hmin Hmax Hseq Hk Hprod Hspan.
  unfold currentPacketSize, effectiveSize.
  destruct (Z.gtb_spec (PingOptions.SweepMaxSize opts) 0); [| lia].
  destruct (Z.leb_spec (PingOptions.SweepMaxSize opts) 0); [lia |].
  rewrite Hseq.
  set (lo := PingOptions.SweepMinSize opts) in *.
  set (hi := PingOptions.SweepMaxSize opts) in *.
  set (incr := PingOptions.SweepIncrSize opts) in *.
  unfold GoInt.in_range, GoInt.min_int, GoInt.max_int in *.
  assert (Hmul : GoInt.mul (k - 1) incr = (k - 1) * incr).
  { apply wrap_in_range.
    unfold GoInt.in_range, GoInt.min_int, GoInt.max_int. nia. }
  assert (Hspan' : GoInt.add (GoInt.sub hi lo) 1 = hi - lo + 1).
  { unfold GoInt.add, GoInt.sub. rewrite wrap_add_l.
    apply wrap_in_range.
    unfold GoInt.in_range, GoInt.min_int, GoInt.max_int. lia. }
  rewrite Hmul, Hspan'. unfold GoInt.rem.
  destruct (Z.eqb_spec (hi - lo + 1) 0); [lia |].
  rewrite Z.rem_mod_nonneg by nia.
  pose proof (Z.mod_pos_bound ((k - 1) * incr) (hi - lo + 1)) as Hbound.
  f_equal. apply wrap_in_range.
  unfold GoInt.in_range, GoInt.min_int, GoInt.max_int. lia.
Qed.

Lemma resolved_options_validate (msg : PingMessage.t) (opts : PingOptions.t) :
  resolvePingOptions msg = (opts, None) -> validatePingOptions opts = None.
Proof.
  unfold resolvePingOptions.
  destruct (validatePingOptions (mergeDefaults msg)) as [err|] eqn:Hv;
    [discriminate |].
  intros Hres. apply (f_equal fst) in Hres. cbn [fst] in Hres. subst opts.
  destruct (PingOptions.IsFlood (mergeDefaults msg)); [| exact Hv].
  apply validate_accepts_iff in Hv. apply validate_accepts_iff.
  cbn [PingOptions.with_Wait PingOptions.Count PingOptions.Wait
       PingOptions.TTL PingOptions.PacketSize PingOptions.SweepMaxSize
       PingOptions.SweepMinSize PingOptions.SweepIncrSize
       PingOptions.Timeout PingOptions.WaitTime PingOptions.TOS].
  repeat split; try apply Hv; lia.
Qed.

Lemma handler_runs_session (env : Env) (msg : PingMessage.t)
    (opts : PingOptions.t) :
  upgrade env = None -> readJSON env = inl msg ->
  resolvePingOptions msg = (opts, None) ->
  PingHandler env
  = deferClose (session opts (formatAddress (PingMessage.Address msg))
                        (ticks env)).
Proof.
  intros Hup Hread Hres. unfold PingHandler.
  rewrite Hup, Hread, Hres. reflexivity.
Qed.

Lemma reports_deferClose (r : list Event * Outcome) :
  reports (fst (deferClose r)) = reports (fst r).
Proof.
  unfold deferClose. destruct r as [evs o]; destruct o; cbn [fst snd];
    rewrite ?reports_app, ?app_nil_r; reflexivity.
Qed.

Lemma session_report_bytes (opts : PingOptions.t) (address : string)
    (ticks : list TickEnv) (i : nat) (p : PongMessage.t) :
  validatePingOptions opts = None ->
  GoInt.in_range (PingOptions.SweepMinSize opts) ->
  GoInt.in_range (PingOptions.SweepMaxSize opts) ->
  (0 < PingOptions.SweepMaxSize opts ->
   Z.of_nat i * PingOptions.SweepIncrSize opts <= GoInt.max_int
   /\ PingOptions.SweepMaxSize opts - PingOptions.SweepMinSize opts + 1
      <= GoInt.max_int) ->
  nth_error (reports (fst (session opts address ticks))) i = Some p ->
  PongMessage.Bytes p = effectiveSize opts (Z.of_nat i + 1).
Proof.
  intros Hvalid Hmin Hmax Hbounds Hp.
  destruct (session_reports opts address ticks) as [Hnone|Hloop];
    [rewrite Hnone in Hp; destruct i; discriminate |].
  rewrite Hloop in Hp.
  destruct (loop_nth_report opts address ticks 0 i p Hp)
    as (e & _ & _ & Hsize & _).
  rewrite Z.add_0_l in Hsize.
  apply validate_accepts_iff in Hvalid.
  destruct Hvalid as (_ & _ & _ & _ & Hsweep & _).
  destruct (Z.le_gt_cases (PingOptions.SweepMaxSize opts) 0) as [Hoff|Hon].
  - rewrite (currentPacketSize_fixed _ _ Hoff) in Hsize.
    rewrite (effectiveSize_fixed _ _ Hoff). congruence.
  - destruct (Hsweep Hon) as [Hlt Hincr].
    destruct (Hbounds Hon) as [Hprod Hspan].
    assert (Hi : Z.of_nat i <= GoInt.max_int).
    { unfold GoInt.max_int in *. nia. }
    rewrite (currentPacketSize_sweep opts _ (Z.of_nat i + 1)) in Hsize;
      try assumption.
    + congruence.
    + unfold GoInt.sub.
      replace (GoInt.wrap (Z.of_nat i + 1) - 1)
        with (GoInt.wrap (Z.of_nat i + 1) + -1) by lia.
      rewrite wrap_add_l.
      replace (Z.of_nat i + 1 + -1) with (Z.of_nat i) by lia.
      replace (Z.of_nat i + 1 - 1) with (Z.of_nat i) by lia.
      apply wrap_in_range.
      unfold GoInt.in_range, GoInt.min_int, GoInt.max_int in *. lia.
    + lia.
    + replace (Z.of_nat i + 1 - 1) with (Z.of_nat i) by lia. exact Hprod.
Qed.

(** C2, as the code has it: the [i]-th report of a session (counted
    from 0, so the report of tick [i + 1]) carries the fixed packet size
    when the sweep is off, and, when it is on, the size
    [sweepMin + (i * sweepIncrement) mod (sweepMax - sweepMin + 1)] of
    the specification provided neither [i * sweepIncrement] nor
    [sweepMax - sweepMin + 1] exceeds the largest [int]; whatever the
    clock, the probes and the channel answer. *)
Theorem report_bytes_follow_sweep (env : Env) (msg : PingMessage.t)
    (opts : PingOptions.t) (i : nat) (p : PongMessage.t) :
  upgrade env = None ->
  readJSON env = inl msg ->
  resolvePingOptions msg = (opts, None) ->
  GoInt.in_range (PingOptions.SweepMinSize opts) ->
  GoInt.in_range (PingOptions.SweepMaxSize opts) ->
  (0 < PingOptions.SweepMaxSize opts ->
   Z.of_nat i * PingOptions.SweepIncrSize opts <= GoInt.max_int
   /\ PingOptions.SweepMaxSize opts - PingOptions.SweepMinSize opts + 1
      <= GoInt.max_int) ->
  nth_error (reports (fst (PingHandler env))) i = Some p ->
  PongMessage.Bytes p = effectiveSize opts (Z.of_nat i + 1).
Proof.
  intros Hup Hread Hres Hmin Hmax Hbounds Hp.
  rewrite (handler_runs_session env msg opts Hup Hread Hres),
    reports_deferClose in Hp.
  apply (session_report_bytes
           opts (formatAddress (PingMessage.Address msg)) (ticks env) i p);
    try assumption.
  apply (resolved_options_validate msg). exact Hres.
Qed.

Lemma report_bytes_follow_sweep_witness :
  nth_error
    (reports (fst (PingHandler (serve (sweep_10_20 5)
                                      (map responsive [1; 2; 3; 4; 5])))))
    3
  = Some fourth_sweep_report
  /\ PongMessage.Bytes fourth_sweep_report
     = effectiveSize (fst (resolvePingOptions (sweep_10_20 5))) 4.
Proof.
  split; [reflexivity |].
  apply (report_bytes_follow_sweep
           (serve (sweep_10_20 5) (map responsive [1; 2; 3; 4; 5]))
           (sweep_10_20 5) (fst (resolvePingOptions (sweep_10_20 5))) 3
           fourth_sweep_report).
  - reflexivity.
  - reflexivity.
  - reflexivity.
  - unfold GoInt.in_range, GoInt.min_int, GoInt.max_int. simpl. lia.
  - unfold GoInt.in_range, GoInt.min_int, GoInt.max_int. simpl. lia.
  - intros _. unfold GoInt.max_int. simpl. lia.
  - reflexivity.
Defined.

(** The five sizes of the sweep from 10 to 20 in steps of 5. *)
Example sweep_10_20_by_5 :
  map PongMessage.Bytes
      (reports (fst (PingHandler (serve (sweep_10_20 5)
                                        (map responsive [1; 2; 3; 4; 5])))))
  = [10; 15; 20; 14; 19]
  /\ map (effectiveSize (fst (resolvePingOptions (sweep_10_20 5))))
         [1; 2; 3; 4; 5]
     = [10; 15; 20; 14; 19].
Proof.
  split; reflexivity.
Qed.

(** C2 as stated fails where the product wraps: with the sweep from 10
    to 20 and the increment 2^62, which validation accepts, the third
    tick multiplies 2 by 2^62; the machine product is -2^63, its
    remainder by 11 is -8, and the report carries 2 bytes, below the
    sweep minimum, where the specification's formula gives 18. *)
Lemma sweep_product_wraps :
  validatePingOptions (mergeDefaults (sweep_10_20 (2 ^ 62))) = None
  /\ GoInt.in_range (2 ^ 62)
  /\ map PongMessage.Bytes
         (reports (fst (PingHandler (serve (sweep_10_20 (2 ^ 62))
                                           (map responsive [1; 2; 3])))))
     = [10; 14; 2]
  /\ effectiveSize (fst (resolvePingOptions (sweep_10_20 (2 ^ 62)))) 3 = 18.
Proof.
  repeat split; vm_compute; try reflexivity; discriminate.
Qed.

(** ** Setup failures *)

(** C8: a session whose configuration cannot be read, or does not
    resolve, ends with [ReadError] or [InvalidOption] having done nothing
    on the channel but close it: no report, no control frame, no error
    message is written. *)
Theorem setup_failure_is_silent (env : Env) :
  upgrade env = None ->
  setup_fails env ->
  fst (PingHandler env) = [Close]
  /\ reports (fst (PingHandler env)) = []
  /\ (snd (PingHandler env) = ReadError
      \/ exists err, snd (PingHandler env) = InvalidOption err).
Proof.
  intros Hup Hfail. unfold PingHandler, setup_fails in *. rewrite Hup.
  destruct (readJSON env) as [msg|err].
  - destruct (resolvePingOptions msg) as [opts [err|]]; simpl in *.
    + repeat split; eauto.
    + contradiction.
  - simpl. auto.
Qed.

Lemma setup_failure_is_silent_witness :
  PingHandler {| upgrade := None; readJSON := inr "unexpected EOF";
                 ticks := map responsive [1; 2] |}
    = ([Close], ReadError)
  /\ fst (PingHandler (serve (with_ttl 0) (map responsive [1; 2])))
     = [Close].
Proof.
  split; [reflexivity |].
  apply (setup_failure_is_silent (serve (with_ttl 0) (map responsive [1; 2])));
    [reflexivity | simpl; discriminate].
Defined.

(** ** Probe failures *)

Lemma tick_blind (opts : PingOptions.t) (address : string) (e e' : TickEnv)
    (s : Z) :
  same_but_probe e e' ->
  snd (tick opts address e s) = snd (tick opts address e' s)
  /\ map blind (fst (tick opts address e s))
     = map blind (fst (tick opts address e' s)).
Proof.
  destruct e as [n g w c], e' as [n' g' w' c'].
  unfold same_but_probe; simpl. intros (-> & -> & ->).
  unfold tick, measureLatency, sendPongMessage, checkConnection, bind, emit,
    ret, stop; simpl.
  destruct ((PingOptions.Count opts >? 0) && (s >=? PingOptions.Count opts));
    [split; reflexivity |].
  destruct (currentPacketSize opts (GoInt.add s 1)); [| split; reflexivity].
  destruct g, g', (PingOptions.IsQuiet opts), w', (PingOptions.IsFlood opts),
    c'; cbn; split; reflexivity.
Qed.

Lemma loop_blind (opts : PingOptions.t) (address : string)
    (ticks ticks' : list TickEnv) :
  Forall2 same_but_probe ticks ticks' ->
  forall s,
    snd (loop opts address ticks s) = snd (loop opts address ticks' s)
    /\ map blind (fst (loop opts address ticks s))
       = map blind (fst (loop opts address ticks' s)).
Proof.
  induction 1 as [|e e' ticks ticks' He _ IH]; intros s; [split; reflexivity |].
  rewrite !loop_cons.
  destruct (tick_blind opts address e e' s He) as [Hsnd Hfst].
  rewrite <- Hsnd.
  destruct (snd (tick opts address e s)) as [o|s']; cbn [fst snd];
    [split; [reflexivity | exact Hfst] |].
  destruct (IH s') as [Hsnd' Hfst'].
  rewrite !map_app, Hfst, Hfst', Hsnd'. split; reflexivity.
Qed.

Lemma session_blind (opts : PingOptions.t) (address : string)
    (ticks ticks' : list TickEnv) :
  Forall2 same_but_probe ticks ticks' ->
  snd (session opts address ticks) = snd (session opts address ticks')
  /\ map blind (fst (session opts address ticks))
     = map blind (fst (session opts address ticks')).
Proof.
  intros Hsame. unfold session.
  destruct (NewTicker (GoInt.mul (PingOptions.Wait opts) Second));
    [| split; reflexivity].
  destruct (loop_blind opts address ticks ticks' Hsame 0) as [Hsnd Hfst].
  destruct (loop opts address ticks 0) as [evs o],
    (loop opts address ticks' 0) as [evs' o']; cbn [fst snd] in *.
  rewrite !map_app, Hfst, Hsnd. split; reflexivity.
Qed.

(** While the count is not reached and the channel takes what is
    written, every tick is measured and, unless quiet, reported. *)
Lemma loop_runs (opts : PingOptions.t) (address : string)
    (ticks : list TickEnv) :
  sweep_span_nonzero opts ->
  Forall channel_ok ticks ->
  forall s,
    PingOptions.Count opts <= 0
    \/ (0 <= s
        /\ s + Z.of_nat (List.length ticks) <= PingOptions.Count opts
        /\ PingOptions.Count opts <= GoInt.max_int) ->
    snd (loop opts address ticks s) = AwaitingTick
    /\ measurements (fst (loop opts address ticks s)) = List.length ticks
    /\ (PingOptions.IsQuiet opts = false ->
        List.length (reports (fst (loop opts address ticks s)))
        = List.length ticks).
Proof.
  intros Hspan Hok.
  induction Hok as [|e ticks He _ IH]; intros s Hcount; [simpl; auto |].
  assert (Hbelow : (PingOptions.Count opts >? 0)
                   && (s >=? PingOptions.Count opts) = false).
  { apply andb_false_iff.
    destruct Hcount as [Hnone|(Hs & Hroom & _)].
    - left. destruct (Z.gtb_spec (PingOptions.Count opts) 0);
        [lia | reflexivity].
    - right. simpl List.length in Hroom.
      destruct (Z.geb_spec s (PingOptions.Count opts)); [lia | reflexivity]. }
  destruct (tick_goes_on opts address e s Hbelow
              (currentPacketSize_total _ _ Hspan) He) as [Hgo Hone].
  rewrite loop_cons, Hgo. cbn [fst snd].
  destruct (IH (GoInt.add s 1)) as (Hend & Hmeas & Hrep).
  { destruct Hcount as [Hnone|(Hs & Hroom & Hint)]; [left; exact Hnone |].
    right. simpl List.length in Hroom.
    assert (Hnext : GoInt.add s 1 = s + 1).
    { apply wrap_in_range.
      unfold GoInt.in_range, GoInt.min_int, GoInt.max_int in *. lia. }
    rewrite Hnext. lia. }
  split; [exact Hend |]. split.
  - rewrite measurements_app, Hone, Hmeas. reflexivity.
  - intros Hq. rewrite reports_app, length_app, (Hrep Hq).
    pose proof (tick_loud opts address e s Hq) as Hloud.
    destruct (reports (fst (tick opts address e s))) as [|p [|p' rest]];
      [| reflexivity | contradiction].
    destruct Hloud as [o Ho]. congruence.
Qed.

(** C6, as the code has it: a failed probe is data, not an end.  The
    outcome of a session and its events, up to the success and latency
    fields of the reports, do not depend on what the probes answer; the
    report written for a tick carries [success = false] and the latency
    0 exactly when that tick's probe failed; and a session that is not
    quiet, on a channel that takes what is written, reports every tick
    below its count, failed probes included. *)
Theorem probe_failure_is_data (opts : PingOptions.t) (address : string)
    (ticks : list TickEnv) :
  (forall ticks',
      Forall2 same_but_probe ticks ticks' ->
      snd (session opts address ticks) = snd (session opts address ticks')
      /\ map blind (fst (session opts address ticks))
         = map blind (fst (session opts address ticks')))
  /\ (forall i p,
        nth_error (reports (fst (session opts address ticks))) i = Some p ->
        exists e,
          nth_error ticks i = Some e
          /\ PongMessage.Success p = probe_ok e
          /\ (probe_ok e = false -> PongMessage.Latency p = 0%Q)
          /\ PongMessage.Sequence p = GoInt.wrap (Z.of_nat i))
  /\ (PingOptions.IsQuiet opts = false ->
      ticker_starts opts ->
      sweep_span_nonzero opts ->
      Forall channel_ok ticks ->
      PingOptions.Count opts <= 0
      \/ Z.of_nat (List.length ticks) <= PingOptions.Count opts
                                       <= GoInt.max_int ->
      List.length (reports (fst (session opts address ticks)))
      = List.length ticks
      /\ snd (session opts address ticks) = AwaitingTick).
Proof.
  split; [| split].
  - intros ticks' Hsame. apply session_blind. exact Hsame.
  - intros i p Hp.
    destruct (session_reports opts address ticks) as [Hnone|Hloop];
      [rewrite Hnone in Hp; destruct i; discriminate |].
    rewrite Hloop in Hp.
    destruct (loop_nth_report opts address ticks 0 i p Hp)
      as (e & He & Hseq & _ & Hsucc & Hlat & _).
    exists e. rewrite Z.add_0_l in Hseq. auto.
  - intros Hq Hticker Hspan Hok Hcount.
    rewrite (session_started _ _ _ Hticker). cbn [fst snd].
    destruct (loop_runs opts address ticks Hspan Hok 0) as (Hend & _ & Hrep).
    { destruct Hcount as [Hnone|[Hroom Hint]]; [left; exact Hnone |].
      right. lia. }
    destruct (preload_silent opts address) as (Hr & _).
    rewrite reports_app, Hr. simpl. auto.
Qed.

Lemma probe_failure_is_data_witness :
  List.length
    (reports (fst (session (fst (resolvePingOptions plain_pings))
                           "http://example.com"
                           [responsive 1; unanswered 2; responsive 3])))
  = 3%nat
  /\ snd (session (fst (resolvePingOptions plain_pings))
                  "http://example.com"
                  [responsive 1; unanswered 2; responsive 3])
     = snd (session (fst (resolvePingOptions plain_pings))
                    "http://example.com"
                    [responsive 1; responsive 2; responsive 3])
  /\ exists e,
       nth_error [responsive 1; unanswered 2; responsive 3] 1 = Some e
       /\ false = probe_ok e.
Proof.
  destruct (probe_failure_is_data
              (fst (resolvePingOptions plain_pings)) "http://example.com"
              [responsive 1; unanswered 2; responsive 3])
    as (Hblind & Hdata & Hrun).
  split; [| split].
  - apply Hrun.
    + reflexivity.
    + reflexivity.
    + intros Hon. vm_compute in Hon. discriminate Hon.
    + repeat constructor.
    + left. vm_compute. discriminate.
  - apply Hblind. repeat constructor.
  - destruct (Hdata 1%nat
                {| PongMessage.Type_ := "pong";
                   PongMessage.Timestamp := 2;
                   PongMessage.Bytes := 56;
                   PongMessage.Sequence := 1;
                   PongMessage.Address := "http://example.com";
                   PongMessage.Latency := 0%Q;
                   PongMessage.Success := false |} eq_refl)
      as (e & He & Hsucc & _).
    exists e. split; [exact He | exact Hsucc].
Defined.

(** C6 as stated fails in a quiet session: the probe of the first tick
    fails, the loop goes on to the second tick, and no report is written
    for either. *)
Lemma quiet_session_hides_failure :
  PingOptions.IsQuiet (fst (resolvePingOptions quiet_pings)) = true
  /\ probe_ok (unanswered 1) = false
  /\ PingHandler (serve quiet_pings [unanswered 1; responsive 2])
     = ([Get "http://example.com"; WriteControl None;
         Get "http://example.com"; WriteControl None], AwaitingTick)
  /\ reports (fst (PingHandler (serve quiet_pings
                                      [unanswered 1; responsive 2]))) = [].
Proof.
  repeat split.
Qed.

(** ** Quiet sessions *)

Lemma measurements_without_writes (evs : list Event) :
  measurements (without_writes evs) = measurements evs.
Proof.
  induction evs as [|ev evs IH]; [reflexivity |].
  destruct ev; simpl; rewrite ?IH; reflexivity.
Qed.

Lemma currentPacketSize_with_IsQuiet (opts : PingOptions.t) (q : bool)
    (sequence : Z) :
  currentPacketSize (PingOptions.with_IsQuiet opts q) sequence
  = currentPacketSize opts sequence.
Proof.
  reflexivity.
Qed.

(** A quiet tick is the tick of the same session without the quiet
    flag, on a channel that takes the report, less the write. *)
Lemma tick_quiet_twin (opts : PingOptions.t) (address : string)
    (e : TickEnv) (s : Z) :
  PingOptions.IsQuiet opts = true ->
  snd (tick opts address e s)
  = snd (tick (PingOptions.with_IsQuiet opts false) address (accepting e) s)
  /\ fst (tick opts address e s)
     = without_writes
         (fst (tick (PingOptions.with_IsQuiet opts false) address
                    (accepting e) s)).
Proof.
  intros Hq.
  unfold tick, measureLatency, sendPongMessage, checkConnection, bind, emit,
    ret, stop.
  rewrite currentPacketSize_with_IsQuiet, Hq. cbn [negb].
  change (PingOptions.Count (PingOptions.with_IsQuiet opts false))
    with (PingOptions.Count opts).
  change (PingOptions.IsFlood (PingOptions.with_IsQuiet opts false))
    with (PingOptions.IsFlood opts).
  change (PingOptions.IsQuiet (PingOptions.with_IsQuiet opts false))
    with false.
  destruct ((PingOptions.Count opts >? 0) && (s >=? PingOptions.Count opts));
    [split; reflexivity |].
  destruct (currentPacketSize opts (GoInt.add s 1)); [| split; reflexivity].
  destruct e as [n g w c]; cbn.
  destruct g, (PingOptions.IsFlood opts), c; cbn; split; reflexivity.
Qed.

Lemma loop_quiet_twin (opts : PingOptions.t) (address : string)
    (ticks : list TickEnv) :
  PingOptions.IsQuiet opts = true ->
  forall s,
    snd (loop opts address ticks s)
    = snd (loop (PingOptions.with_IsQuiet opts false) address
                (map accepting ticks) s)
    /\ fst (loop opts address ticks s)
       = without_writes
           (fst (loop (PingOptions.with_IsQuiet opts false) address
                      (map accepting ticks) s)).
Proof.
  intros Hq. induction ticks as [|e ticks IH]; intros s; [split; reflexivity |].
  cbn [map]. rewrite !loop_cons.
  destruct (tick_quiet_twin opts address e s Hq) as [Hsnd Hfst].
  rewrite <- Hsnd, Hfst.
  destruct (snd (tick opts address e s)) as [o|s']; cbn [fst snd];
    [split; reflexivity |].
  destruct (IH s') as [Hsnd' Hfst'].
  rewrite without_writes_app, Hsnd', Hfst'. split; reflexivity.
Qed.

Lemma session_quiet_twin (opts : PingOptions.t) (address : string)
    (ticks : list TickEnv) :
  PingOptions.IsQuiet opts = true ->
  snd (session opts address ticks)
  = snd (session (PingOptions.with_IsQuiet opts false) address
                 (map accepting ticks))
  /\ fst (session opts address ticks)
     = without_writes
         (fst (session (PingOptions.with_IsQuiet opts false) address
                       (map accepting ticks))).
Proof.
  intros Hq. unfold session.
  change (PingOptions.Wait (PingOptions.with_IsQuiet opts false))
    with (PingOptions.Wait opts).
  destruct (NewTicker (GoInt.mul (PingOptions.Wait opts) Second));
    [| split; reflexivity].
  destruct (loop_quiet_twin opts address ticks Hq 0) as [Hsnd Hfst].
  destruct (loop opts address ticks 0) as [evs o],
    (loop (PingOptions.with_IsQuiet opts false) address
          (map accepting ticks) 0) as [evs' o']; cbn [fst snd] in *.
  rewrite without_writes_app.
  change (preload (PingOptions.with_IsQuiet opts false) address)
    with (preload opts address).
  destruct (preload_silent opts address) as (_ & _ & _ & ->).
  rewrite Hfst, Hsnd. split; reflexivity.
Qed.

Lemma session_quiet (opts : PingOptions.t) (address : string)
    (ticks : list TickEnv) :
  PingOptions.IsQuiet opts = true ->
  reports (fst (session opts address ticks)) = []
  /\ without_writes (fst (session opts address ticks))
     = fst (session opts address ticks)
  /\ (PingOptions.IsFlood opts = false ->
      checks (fst (session opts address ticks))
      = measurements (fst (session opts address ticks))).
Proof.
  intros Hq. unfold session.
  destruct (NewTicker (GoInt.mul (PingOptions.Wait opts) Second));
    [| simpl; auto].
  destruct (loop_quiet opts address ticks 0 Hq) as (Hr & Hw & Hc).
  destruct (loop opts address ticks 0) as [evs o]; cbn [fst snd] in *.
  destruct (preload_silent opts address) as (Hpr & Hpm & Hpc & Hpw).
  rewrite reports_app, without_writes_app, checks_app, measurements_app.
  rewrite Hr, Hw, Hpr, Hpm, Hpc, Hpw.
  repeat split; try reflexivity. exact Hc.
Qed.

Lemma accepting_channel_ok (ticks : list TickEnv) :
  Forall (fun e => writeControl e = None) ticks ->
  Forall channel_ok (map accepting ticks).
Proof.
  induction 1 as [|e ticks He _ IH]; constructor; [| exact IH].
  split; [reflexivity | exact He].
Qed.

(** C7: a quiet session attempts no write of a report, whatever the
    probes answer; it ends as the same session without the quiet flag
    ends on a channel that takes every report, after the same events
    less the writes; without flood every measurement is followed by a
    liveness check; and with a count [c > 0], a ticker that starts, a
    sweep span that is not zero and liveness checks that pass, it
    measures [c] times and ends with [CountExhausted]. *)
Theorem quiet_session_writes_nothing (opts : PingOptions.t)
    (address : string) (ticks : list TickEnv) :
  PingOptions.IsQuiet opts = true ->
  reports (fst (session opts address ticks)) = []
  /\ without_writes (fst (session opts address ticks))
     = fst (session opts address ticks)
  /\ snd (session opts address ticks)
     = snd (session (PingOptions.with_IsQuiet opts false) address
                    (map accepting ticks))
  /\ fst (session opts address ticks)
     = without_writes
         (fst (session (PingOptions.with_IsQuiet opts false) address
                       (map accepting ticks)))
  /\ (PingOptions.IsFlood opts = false ->
      checks (fst (session opts address ticks))
      = measurements (fst (session opts address ticks)))
  /\ (0 < PingOptions.Count opts <= GoInt.max_int ->
      ticker_starts opts ->
      sweep_span_nonzero opts ->
      Forall (fun e => writeControl e = None) ticks ->
      (Z.to_nat (PingOptions.Count opts) < List.length ticks)%nat ->
      snd (session opts address ticks) = CountExhausted
      /\ measurements (fst (session opts address ticks))
         = Z.to_nat (PingOptions.Count opts)).
Proof.
  intros Hq.
  destruct (session_quiet opts address ticks Hq) as (Hr & Hw & Hc).
  destruct (session_quiet_twin opts address ticks Hq) as [Hsnd Hfst].
  repeat (split; [assumption |]).
  intros Hcount Hticker Hspan Hok Hlen.
  destruct (count_exhaustion (PingOptions.with_IsQuiet opts false) address
              (map accepting ticks)) as (Hend & Hmeas & _);
    try assumption.
  - apply accepting_channel_ok. exact Hok.
  - rewrite length_map. exact Hlen.
  - rewrite Hsnd, Hfst, measurements_without_writes. auto.
Qed.

Lemma quiet_session_writes_nothing_witness :
  reports (fst (session (fst (resolvePingOptions three_quiet_pings))
                        "http://example.com"
                        (map unanswered [1; 2; 3; 4]))) = []
  /\ snd (session (fst (resolvePingOptions three_quiet_pings))
                  "http://example.com" (map unanswered [1; 2; 3; 4]))
     = CountExhausted
  /\ measurements
       (fst (session (fst (resolvePingOptions three_quiet_pings))
                     "http://example.com" (map unanswered [1; 2; 3; 4])))
     = 3%nat.
Proof.
  destruct (quiet_session_writes_nothing
              (fst (resolvePingOptions three_quiet_pings))
              "http://example.com" (map unanswered [1; 2; 3; 4]) eq_refl)
    as (Hnone & _ & _ & _ & _ & Hcount).
  split; [exact Hnone |].
  apply Hcount.
  - vm_compute. split; [reflexivity | discriminate].
  - reflexivity.
  - intros Hon. vm_compute in Hon. discriminate Hon.
  - repeat constructor.
  - vm_compute. lia.
Defined.

(** ** The revision without options *)

(** In the revision without options every report carries
    [success = false], whatever the probe answered. *)
Lemma legacy_reports_never_succeed (address : string) (ticks : list TickEnv)
    (s : Z) (p : PongMessage.t) :
  In p (reports (fst (Legacy.loop address ticks s))) ->
  PongMessage.Success p = false.
Proof.
  revert s. induction ticks as [|e ticks IH]; intros s; [contradiction |].
  simpl.
  unfold Legacy.tick, measureLatency, sendPongMessage, checkConnection, bind,
    emit, ret, stop.
  destruct (get e), (writeJSON e), (writeControl e); cbn;
    try (intros [<- | []]; reflexivity);
    try contradiction;
    destruct (Legacy.loop address ticks (GoInt.add s 1)) as [evs o] eqn:Hloop;
    cbn; intros [<- | Hin]; try reflexivity;
    apply (IH (GoInt.add s 1)); rewrite Hloop; exact Hin.
Qed.

(* ================================================================== *)
(** * Part IV: further properties of the code *)
(* ================================================================== *)

(** ** The address *)

Lemma length_append (s1 s2 : string) :
  String.length (s1 ++ s2)%string
  = (String.length s1 + String.length s2)%nat.
Proof.
  induction s1 as [|c s1 IH]; simpl; [reflexivity |].
  rewrite IH. reflexivity.
Qed.

(** X1: whatever the input, the normalised address begins with
    "http://" or "https://"; it is the input itself or the input behind
    "http://", so it is never shorter than the input and at most seven
    bytes longer. *)
Theorem formatAddress_has_scheme (a : string) :
  (HasPrefix (formatAddress a) "http://" = true
   \/ HasPrefix (formatAddress a) "https://" = true)
  /\ (formatAddress a = a \/ formatAddress a = ("http://" ++ a)%string)
  /\ (String.length a <= String.length (formatAddress a)
                      <= String.length a + 7)%nat.
Proof.
  destruct (HasPrefix a "http://") eqn:Hhttp.
  - rewrite (formatAddress_keeps a) by (left; exact Hhttp).
    repeat split; auto; lia.
  - destruct (HasPrefix a "https://") eqn:Hhttps.
    + rewrite (formatAddress_keeps a) by (right; exact Hhttps).
      repeat split; auto; lia.
    + rewrite (formatAddress_prepends a) by (split; assumption).
      split; [left; apply HasPrefix_http_prepended |].
      split; [right; reflexivity |].
      rewrite length_append. simpl. lia.
Qed.

(** ** The resolver *)

Lemma validate_error_known (o : PingOptions.t) (err : string) :
  validatePingOptions o = Some err -> rule_of_error err <> None.
Proof.
  unfold validatePingOptions, reject.
  repeat match goal with
         | |- context [if ?b then _ else _] => destruct b
         end;
    intros Herr; inversion Herr; subst; discriminate.
Qed.

Lemma all_rules_validate (o : PingOptions.t) :
  (forall r, rule_holds r o = true) <-> validatePingOptions o = None.
Proof.
  pose proof (validate_reports_first_failing o) as Hfirst.
  split.
  - intros Hall.
    destruct (validatePingOptions o) as [err|] eqn:Hv; [| reflexivity].
    exfalso. apply (validate_error_known o err Hv).
    rewrite Hfirst. unfold first_failing.
    destruct (find (fun r => negb (rule_holds r o)) rule_order) as [r|] eqn:Hf;
      [| reflexivity].
    apply find_some in Hf. destruct Hf as [_ Hr].
    rewrite (Hall r) in Hr. discriminate.
  - intros Hv r. rewrite Hv in Hfirst. unfold first_failing in Hfirst.
    pose proof (find_none _ _ Hfirst r (every_rule_in_order r)) as Hr.
    simpl in Hr. destruct (rule_holds r o); [reflexivity | discriminate].
Qed.

(** X2: resolution succeeds exactly when the merged options keep all
    eight rules: flags, strings and the preload count never make it
    fail; and every error it returns is "invalid ping options: "
    followed by one of the validator's nine messages. *)
Theorem resolution_fails_only_on_a_broken_rule (msg : PingMessage.t) :
  (snd (resolvePingOptions msg) = None
   <-> forall r, rule_holds r (mergeDefaults msg) = true)
  /\ (forall err,
        snd (resolvePingOptions msg) = Some err ->
        exists reason,
          err = ("invalid ping options: " ++ reason)%string
          /\ validatePingOptions (mergeDefaults msg) = Some reason
          /\ rule_of_error reason <> None).
Proof.
  split.
  - rewrite all_rules_validate. unfold resolvePingOptions.
    destruct (validatePingOptions (mergeDefaults msg)); simpl;
      split; congruence.
  - intros err. unfold resolvePingOptions.
    destruct (validatePingOptions (mergeDefaults msg)) as [reason|] eqn:Hv;
      simpl; [| discriminate].
    intros Herr. inversion Herr. exists reason.
    split; [reflexivity |]. split; [reflexivity |].
    apply (validate_error_known _ _ Hv).
Qed.

(** X3: the options a successful resolution returns pass validation
    again, flood override included, so they keep all eight rules; a
    flood session has the interval 1, any other the supplied or default
    one; and the result does not depend on the address. *)
Theorem resolved_options_are_valid (msg : PingMessage.t)
    (opts : PingOptions.t) :
  resolvePingOptions msg = (opts, None) ->
  validatePingOptions opts = None
  /\ (forall r, rule_holds r opts = true)
  /\ (PingOptions.IsFlood opts = true -> PingOptions.Wait opts = 1)
  /\ (PingOptions.IsFlood opts = false ->
      PingOptions.Wait opts = getOrDefault (PingMessage.Wait msg) defaultWait)
  /\ PingOptions.IsFlood opts = getOrDefault (PingMessage.Flood msg) false.
Proof.
  intros Hres.
  pose proof (resolved_options_validate msg opts Hres) as Hvalid.
  split; [exact Hvalid |].
  split; [apply all_rules_validate; exact Hvalid |].
  unfold resolvePingOptions in Hres.
  destruct (validatePingOptions (mergeDefaults msg)); [discriminate |].
  apply (f_equal fst) in Hres. cbn [fst] in Hres. subst opts.
  destruct (PingOptions.IsFlood (mergeDefaults msg)) eqn:Hflood;
    cbn [PingOptions.IsFlood PingOptions.Wait PingOptions.with_Wait];
    rewrite ?Hflood.
  - split; [reflexivity |]. split; [discriminate | symmetry; exact Hflood].
  - split; [discriminate |]. split; [reflexivity | symmetry; exact Hflood].
Qed.

Lemma resolved_options_are_valid_witness :
  validatePingOptions (fst (resolvePingOptions (flood_with_interval 5)))
  = None
  /\ PingOptions.Wait (fst (resolvePingOptions (flood_with_interval 5))) = 1.
Proof.
  destruct (resolved_options_are_valid
              (flood_with_interval 5)
              (fst (resolvePingOptions (flood_with_interval 5))) eq_refl)
    as (Hvalid & _ & Hflood & _).
  split; [exact Hvalid | apply Hflood; reflexivity].
Defined.

(** ** Why a tick stops *)

Lemma occurrences_app (kind : Event -> bool) (evs evs' : list Event) :
  occurrences kind (evs ++ evs')
  = (occurrences kind evs + occurrences kind evs')%nat.
Proof.
  unfold occurrences. rewrite filter_app, length_app. reflexivity.
Qed.

Lemma currentPacketSize_panics (opts : PingOptions.t) (sequence : Z) :
  currentPacketSize opts sequence = None ->
  0 < PingOptions.SweepMaxSize opts /\ machine_span opts = 0.
Proof.
  unfold currentPacketSize, machine_span, GoInt.rem.
  destruct (Z.gtb_spec (PingOptions.SweepMaxSize opts) 0) as [Hon|_];
    [| discriminate].
  destruct (Z.eqb_spec
              (GoInt.add (GoInt.sub (PingOptions.SweepMaxSize opts)
                                    (PingOptions.SweepMinSize opts)) 1) 0)
    as [Hzero|_]; [| discriminate].
  intros _. split; [lia | exact Hzero].
Qed.

(** The four ways a tick ends the session, each with its cause. *)
Lemma tick_stop_reason (opts : PingOptions.t) (address : string)
    (e : TickEnv) (s : Z) (o : Outcome) :
  snd (tick opts address e s) = inl o ->
  match o with
  | CountExhausted =>
      0 < PingOptions.Count opts <= s /\ fst (tick opts address e s) = []
  | Panicked reason =>
      reason = "runtime error: integer divide by zero"
      /\ 0 < PingOptions.SweepMaxSize opts /\ machine_span opts = 0
      /\ fst (tick opts address e s) = []
  | WriteError =>
      PingOptions.IsQuiet opts = false /\ writeJSON e <> None
  | PeerUnreachable =>
      PingOptions.IsFlood opts = false /\ writeControl e <> None
  | _ => False
  end.
Proof.
  unfold tick, measureLatency, sendPongMessage, checkConnection, bind, emit,
    ret, stop.
  destruct ((PingOptions.Count opts >? 0) && (s >=? PingOptions.Count opts))
    eqn:Hcount.
  - cbn. intros Ho. inversion Ho; subst.
    apply andb_true_iff in Hcount. destruct Hcount as [Hpos Hreached].
    apply Z.gtb_lt in Hpos. apply Z.geb_le in Hreached.
    split; [lia | reflexivity].
  - destruct (currentPacketSize opts (GoInt.add s 1)) eqn:Hsize.
    + destruct (get e), (PingOptions.IsQuiet opts), (writeJSON e),
        (PingOptions.IsFlood opts), (writeControl e); cbn;
        intros Ho; inversion Ho; subst; split; congruence.
    + cbn. intros Ho. inversion Ho; subst.
      destruct (currentPacketSize_panics _ _ Hsize) as [Hon Hzero].
      auto.
Qed.

(** What one tick does at most. *)
Lemma tick_census (opts : PingOptions.t) (address : string) (e : TickEnv)
    (s : Z) :
  (occurrences is_get (fst (tick opts address e s)) <= 1)%nat
  /\ (occurrences is_write (fst (tick opts address e s))
      <= occurrences is_get (fst (tick opts address e s)))%nat
  /\ (occurrences is_check (fst (tick opts address e s))
      <= occurrences is_get (fst (tick opts address e s)))%nat
  /\ (occurrences is_sleep (fst (tick opts address e s))
      <= occurrences is_get (fst (tick opts address e s)))%nat
  /\ (List.length (reports (fst (tick opts address e s)))
      <= occurrences is_write (fst (tick opts address e s)))%nat
  /\ occurrences is_close (fst (tick opts address e s)) = O
  /\ occurrences is_preload (fst (tick opts address e s)) = O
  /\ (PingOptions.IsFlood opts = true ->
      occurrences is_check (fst (tick opts address e s)) = O)
  /\ (PingOptions.IsFlood opts = false ->
      occurrences is_sleep (fst (tick opts address e s)) = O)
  /\ Forall (fun ev => is_sleep ev = true -> ev = Sleep Millisecond)
            (fst (tick opts address e s))
  /\ Forall (fun ev => is_get ev = true -> ev = Get address)
            (fst (tick opts address e s)).
Proof.
  tick_cases opts e s;
    repeat split; try reflexivity; try discriminate; try lia;
    repeat constructor; discriminate.
Qed.

(** ** What a loop does at most, and why it stops *)

Lemma loop_stop_reason (opts : PingOptions.t) (address : string)
    (ticks : list TickEnv) (s : Z) :
  stop_cause opts ticks (snd (loop opts address ticks s))
  /\ forall reason,
       snd (loop opts address ticks s) = Panicked reason ->
       reason = "runtime error: integer divide by zero".
Proof.
  revert s. induction ticks as [|e ticks IH]; intros s;
    [simpl; split; [exact I | discriminate] |].
  rewrite loop_cons.
  destruct (snd (tick opts address e s)) as [o|s'] eqn:Hsnd; cbn [snd].
  - pose proof (tick_stop_reason opts address e s o Hsnd) as Hwhy.
    destruct o; simpl in *; try contradiction.
    + split; [lia | discriminate].
    + split; [| discriminate].
      destruct Hwhy as [Hq Hw]. split; [exact Hq |].
      exists e. auto.
    + split; [| discriminate].
      destruct Hwhy as [Hf Hc]. split; [exact Hf |].
      exists e. auto.
    + destruct Hwhy as (-> & Hon & Hzero & _).
      split; [right; auto | intros r Hr; inversion Hr; reflexivity].
  - destruct (IH s') as [Hcause Hpanic]. split; [| exact Hpanic].
    destruct (snd (loop opts address ticks s')); simpl in *; auto.
    + destruct Hcause as (Hq & e0 & Hin & Hw). eauto 6.
    + destruct Hcause as (Hf & e0 & Hin & Hc). eauto 6.
Qed.

Lemma loop_census (opts : PingOptions.t) (address : string)
    (ticks : list TickEnv) (s : Z) :
  (occurrences is_get (fst (loop opts address ticks s))
   <= List.length ticks)%nat
  /\ (occurrences is_write (fst (loop opts address ticks s))
      <= occurrences is_get (fst (loop opts address ticks s)))%nat
  /\ (occurrences is_check (fst (loop opts address ticks s))
      <= occurrences is_get (fst (loop opts address ticks s)))%nat
  /\ (occurrences is_sleep (fst (loop opts address ticks s))
      <= occurrences is_get (fst (loop opts address ticks s)))%nat
  /\ (List.length (reports (fst (loop opts address ticks s)))
      <= occurrences is_write (fst (loop opts address ticks s)))%nat
  /\ occurrences is_close (fst (loop opts address ticks s)) = O
  /\ occurrences is_preload (fst (loop opts address ticks s)) = O
  /\ (PingOptions.IsFlood opts = true ->
      occurrences is_check (fst (loop opts address ticks s)) = O)
  /\ (PingOptions.IsFlood opts = false ->
      occurrences is_sleep (fst (loop opts address ticks s)) = O)
  /\ Forall (fun ev => is_sleep ev = true -> ev = Sleep Millisecond)
            (fst (loop opts address ticks s))
  /\ Forall (fun ev => is_get ev = true -> ev = Get address)
            (fst (loop opts address ticks s)).
Proof.
  revert s. induction ticks as [|e ticks IH]; intros s.
  { simpl. repeat split; auto. }
  rewrite loop_cons.
  destruct (tick_census opts address e s)
    as (Hg & Hw & Hc & Hs & Hr & Hcl & Hp & Hfl & Hnf & Hms & Hga).
  destruct (snd (tick opts address e s)) as [o|s']; cbn [fst snd].
  - simpl List.length. repeat split; auto; lia.
  - destruct (IH s')
      as (Hg' & Hw' & Hc' & Hs' & Hr' & Hcl' & Hp' & Hfl' & Hnf' & Hms' & Hga').
    rewrite !occurrences_app, reports_app, length_app. simpl List.length.
    repeat split; try lia.
    + intros Hf. rewrite (Hfl Hf), (Hfl' Hf). reflexivity.
    + intros Hf. rewrite (Hnf Hf), (Hnf' Hf). reflexivity.
    + apply Forall_app. split; assumption.
    + apply Forall_app. split; assumption.
Qed.

Lemma preload_census (opts : PingOptions.t) (address : string) :
  occurrences is_preload (preload opts address)
  = Z.to_nat (PingOptions.Preload opts)
  /\ occurrences is_get (preload opts address) = O
  /\ occurrences is_write (preload opts address) = O
  /\ occurrences is_check (preload opts address) = O
  /\ occurrences is_sleep (preload opts address) = O
  /\ occurrences is_close (preload opts address) = O
  /\ Forall (fun ev => ev = GoPreload address) (preload opts address).
Proof.
  unfold preload.
  destruct (Z.gtb_spec (PingOptions.Preload opts) 0) as [Hpos|Hneg].
  - induction (Z.to_nat (PingOptions.Preload opts)) as [|n IH];
      [simpl; repeat split; auto |].
    destruct IH as (Hp & Hg & Hw & Hc & Hs & Hcl & Hall).
    unfold occurrences in *. simpl. rewrite Hp.
    repeat split; auto.
  - replace (Z.to_nat (PingOptions.Preload opts)) with O by lia.
    simpl. repeat split; auto.
Qed.

Lemma handler_cases (env : Env) :
  (upgrade env <> None /\ PingHandler env = ([], UpgradeError))
  \/ (upgrade env = None /\ (exists err, readJSON env = inr err)
      /\ PingHandler env = ([Close], ReadError))
  \/ (upgrade env = None
      /\ exists msg reason,
          readJSON env = inl msg
          /\ validatePingOptions (mergeDefaults msg) = Some reason
          /\ PingHandler env
             = ([Close],
                InvalidOption ("invalid ping options: " ++ reason)%string))
  \/ (upgrade env = None
      /\ exists msg opts,
          readJSON env = inl msg
          /\ resolvePingOptions msg = (opts, None)
          /\ PingHandler env
             = deferClose (session opts
                                   (formatAddress (PingMessage.Address msg))
                                   (ticks env))).
Proof.
  unfold PingHandler.
  destruct (upgrade env) as [err|] eqn:Hup;
    [left; split; [discriminate | reflexivity] |].
  right.
  destruct (readJSON env) as [msg|err] eqn:Hread.
  - right.
    destruct (validatePingOptions (mergeDefaults msg)) as [reason|] eqn:Hv.
    + left. split; [reflexivity |]. exists msg, reason.
      rewrite (resolve_invalid _ _ Hv). auto.
    + right. split; [reflexivity |].
      exists msg, (fst (resolvePingOptions msg)).
      split; [reflexivity |].
      rewrite (resolve_valid _ Hv). cbn [fst]. auto.
  - left. split; [reflexivity |]. split; [eauto | reflexivity].
Qed.

Lemma deferClose_events (r : list Event * Outcome) :
  (snd r = AwaitingTick /\ deferClose r = r)
  \/ (snd r <> AwaitingTick /\ deferClose r = (fst r ++ [Close], snd r)).
Proof.
  unfold deferClose. destruct r as [evs o]; destruct o; cbn [fst snd];
    try (right; split; [discriminate | reflexivity]).
  left. split; reflexivity.
Qed.

Lemma snd_deferClose (r : list Event * Outcome) :
  snd (deferClose r) = snd r.
Proof.
  destruct (deferClose_events r) as [[_ ->] | [_ ->]]; reflexivity.
Qed.

Lemma session_cases (opts : PingOptions.t) (address : string)
    (ticks : list TickEnv) :
  (GoInt.mul (PingOptions.Wait opts) Second <= 0
   /\ session opts address ticks
      = ([], Panicked "non-positive interval for NewTicker"))
  \/ (ticker_starts opts
      /\ session opts address ticks
         = (preload opts address ++ fst (loop opts address ticks 0),
            snd (loop opts address ticks 0))).
Proof.
  destruct (Z.le_gt_cases (GoInt.mul (PingOptions.Wait opts) Second) 0)
    as [Hneg|Hpos].
  - left. split; [exact Hneg |]. apply session_not_started.
    unfold ticker_starts. lia.
  - right. assert (Hstarts : ticker_starts opts) by (unfold ticker_starts; lia).
    split; [exact Hstarts | apply session_started; exact Hstarts].
Qed.

Lemma session_stop_reason (opts : PingOptions.t) (address : string)
    (ticks : list TickEnv) :
  stop_cause opts ticks (snd (session opts address ticks)).
Proof.
  destruct (session_cases opts address ticks) as [[Hneg ->] | [Hpos ->]];
    cbn [snd].
  - left. auto.
  - apply loop_stop_reason.
Qed.

(** X4: every way a run of the handler ends has its cause in the
    environment and the options: [UpgradeError] only after a failed
    upgrade, [ReadError] only after a failed read, [InvalidOption] only
    with the validator's error, [CountExhausted] only with a positive
    count, [WriteError] only when not quiet and some write fails,
    [PeerUnreachable] only without flood and when some liveness check
    fails, a panic only for a non-positive ticker period or a zero sweep
    span. *)
Theorem handler_outcome_has_cause (env : Env) :
  handler_cause env (snd (PingHandler env)).
Proof.
  destruct (handler_cases env)
    as [[Hup ->] | [(Hup & Herr & ->)
                   | [(Hup & msg & reason & Hread & Hv & ->)
                     | (Hup & msg & opts & Hread & Hres & ->)]]];
    cbn [snd handler_cause].
  - exact Hup.
  - auto.
  - split; [exact Hup |]. exists msg, reason. auto.
  - rewrite snd_deferClose.
    pose proof (session_stop_reason
                  opts (formatAddress (PingMessage.Address msg)) (ticks env))
      as Hcause.
    destruct (snd (session opts (formatAddress (PingMessage.Address msg))
                           (ticks env)));
      simpl in Hcause |- *; try contradiction;
      (split; [exact Hup |]); exists msg, opts; auto.
Qed.

(** X5: a flood session always gets its ticker, and so does any session
    with an interval from 1 to 9223372036 seconds; a session that is not
    flood and has the interval 0 never gets one: the handler panics
    before it launches a probe or writes anything, and only closes the
    channel. *)
Theorem interval_decides_the_ticker (env : Env) (msg : PingMessage.t)
    (opts : PingOptions.t) :
  upgrade env = None ->
  readJSON env = inl msg ->
  resolvePingOptions msg = (opts, None) ->
  (PingOptions.IsFlood opts = true \/ 1 <= PingOptions.Wait opts <= 9223372036 ->
   ticker_starts opts
   /\ snd (PingHandler env) <> Panicked "non-positive interval for NewTicker")
  /\ (PingOptions.Wait opts = 0 ->
      PingHandler env
      = ([Close], Panicked "non-positive interval for NewTicker")).
Proof.
  intros Hup Hread Hres.
  rewrite (handler_runs_session env msg opts Hup Hread Hres).
  split.
  - intros Hwait.
    assert (Hstarts : ticker_starts opts).
    { unfold ticker_starts.
      assert (Hrange : 1 <= PingOptions.Wait opts <= 9223372036).
      { destruct Hwait as [Hflood|Hrange]; [| exact Hrange].
        unfold resolvePingOptions in Hres.
        destruct (validatePingOptions (mergeDefaults msg)); [discriminate |].
        apply (f_equal fst) in Hres. cbn [fst] in Hres. subst opts.
        destruct (PingOptions.IsFlood (mergeDefaults msg)) eqn:Hf;
          [cbn [PingOptions.Wait PingOptions.with_Wait]; lia | congruence]. }
      unfold GoInt.mul, Second. rewrite wrap_in_range;
        unfold GoInt.in_range, GoInt.min_int, GoInt.max_int; lia. }
    split; [exact Hstarts |].
    rewrite snd_deferClose, (session_started _ _ _ Hstarts). cbn [snd].
    intros Hpanic.
    destruct (loop_stop_reason
                opts (formatAddress (PingMessage.Address msg)) (ticks env) 0)
      as [_ Hreason].
    specialize (Hreason _ Hpanic). discriminate Hreason.
  - intros Hzero. rewrite session_not_started; [reflexivity |].
    unfold ticker_starts. rewrite Hzero. vm_compute. discriminate.
Qed.

Lemma interval_decides_the_ticker_witness :
  ticker_starts (fst (resolvePingOptions (flood_with_interval 0)))
  /\ PingHandler (serve three_at_interval_zero (map responsive [1; 2]))
     = ([Close], Panicked "non-positive interval for NewTicker").
Proof.
  destruct (interval_decides_the_ticker
              (serve (flood_with_interval 0) [])
              (flood_with_interval 0)
              (fst (resolvePingOptions (flood_with_interval 0)))
              eq_refl eq_refl eq_refl) as [Hstart _].
  destruct (interval_decides_the_ticker
              (serve three_at_interval_zero (map responsive [1; 2]))
              three_at_interval_zero
              (fst (resolvePingOptions three_at_interval_zero))
              eq_refl eq_refl eq_refl) as [_ Hpanic].
  split.
  - apply Hstart. left. reflexivity.
  - apply Hpanic. reflexivity.
Defined.

(** ** What a session does at most *)

Lemma session_census (opts : PingOptions.t) (address : string)
    (ticks : list TickEnv) :
  (occurrences is_get (fst (session opts address ticks))
   <= List.length ticks)%nat
  /\ (occurrences is_write (fst (session opts address ticks))
      <= occurrences is_get (fst (session opts address ticks)))%nat
  /\ (occurrences is_check (fst (session opts address ticks))
      <= occurrences is_get (fst (session opts address ticks)))%nat
  /\ (occurrences is_sleep (fst (session opts address ticks))
      <= occurrences is_get (fst (session opts address ticks)))%nat
  /\ (List.length (reports (fst (session opts address ticks)))
      <= occurrences is_write (fst (session opts address ticks)))%nat
  /\ occurrences is_close (fst (session opts address ticks)) = O
  /\ (PingOptions.IsFlood opts = true ->
      occurrences is_check (fst (session opts address ticks)) = O)
  /\ (PingOptions.IsFlood opts = false ->
      occurrences is_sleep (fst (session opts address ticks)) = O)
  /\ Forall (fun ev => is_sleep ev = true -> ev = Sleep Millisecond)
            (fst (session opts address ticks))
  /\ Forall (fun ev => is_get ev = true -> ev = Get address)
            (fst (session opts address ticks)).
Proof.
  destruct (session_cases opts address ticks) as [[_ ->] | [_ ->]];
    cbn [fst].
  { unfold occurrences. simpl. repeat split; auto; lia. }
  destruct (loop_census opts address ticks 0)
    as (Hg & Hw & Hc & Hs & Hr & Hcl & _ & Hfl & Hnf & Hms & Hga).
  destruct (preload_census opts address)
    as (_ & Hpg & Hpw & Hpc & Hps & Hpcl & Hall).
  destruct (preload_silent opts address) as (Hpr & _).
  rewrite !occurrences_app, reports_app, Hpr, Hpg, Hpw, Hpc, Hps, Hpcl.
  simpl. repeat split; auto.
  - apply Forall_app. split; [| exact Hms].
    eapply Forall_impl; [| exact Hall]. intros ev -> Hs'. discriminate Hs'.
  - apply Forall_app. split; [| exact Hga].
    eapply Forall_impl; [| exact Hall]. intros ev -> Hg'. discriminate Hg'.
Qed.

(** X6: in every run of the handler there is at most one measurement
    per tick delivered, at most one report write, one liveness check and
    one pause per measurement, no report reaches the channel without a
    write, and the channel is closed at most once. *)
Theorem one_measurement_per_tick (env : Env) :
  (occurrences is_get (fst (PingHandler env)) <= List.length (ticks env))%nat
  /\ (occurrences is_write (fst (PingHandler env))
      <= occurrences is_get (fst (PingHandler env)))%nat
  /\ (occurrences is_check (fst (PingHandler env))
      <= occurrences is_get (fst (PingHandler env)))%nat
  /\ (occurrences is_sleep (fst (PingHandler env))
      <= occurrences is_get (fst (PingHandler env)))%nat
  /\ (List.length (reports (fst (PingHandler env)))
      <= occurrences is_write (fst (PingHandler env)))%nat
  /\ (occurrences is_close (fst (PingHandler env)) <= 1)%nat.
Proof.
  destruct (handler_cases env)
    as [[_ ->] | [(_ & _ & ->)
                 | [(_ & msg & reason & _ & _ & ->)
                   | (_ & msg & opts & _ & _ & ->)]]];
    try (cbn; repeat split; lia).
  destruct (session_census opts (formatAddress (PingMessage.Address msg))
                           (ticks env))
    as (Hg & Hw & Hc & Hs & Hr & Hcl & _).
  destruct (deferClose_events
              (session opts (formatAddress (PingMessage.Address msg))
                       (ticks env))) as [[_ ->] | [_ ->]]; cbn [fst].
  - rewrite Hcl. repeat split; auto.
  - rewrite !occurrences_app, reports_app, length_app, Hcl.
    change (occurrences is_get [Close]) with O.
    change (occurrences is_write [Close]) with O.
    change (occurrences is_check [Close]) with O.
    change (occurrences is_sleep [Close]) with O.
    change (occurrences is_close [Close]) with 1%nat.
    change (List.length (reports [Close])) with O.
    rewrite !Nat.add_0_r. repeat split; auto.
Qed.

Lemma handler_outcome_cause_of_session (env : Env) (msg : PingMessage.t)
    (opts : PingOptions.t) :
  upgrade env = None ->
  readJSON env = inl msg ->
  resolvePingOptions msg = (opts, None) ->
  stop_cause opts (ticks env) (snd (PingHandler env)).
Proof.
  intros Hup Hread Hres.
  rewrite (handler_runs_session env msg opts Hup Hread Hres), snd_deferClose.
  apply session_stop_reason.
Qed.

(** X7: a flood session never attempts a liveness check, so it never
    ends with [PeerUnreachable], and each of its pauses is one
    millisecond; a session without flood never pauses; and every
    measurement of either goes to the normalised address. *)
Theorem flood_pauses_instead_of_checking (env : Env) (msg : PingMessage.t)
    (opts : PingOptions.t) :
  upgrade env = None ->
  readJSON env = inl msg ->
  resolvePingOptions msg = (opts, None) ->
  (PingOptions.IsFlood opts = true ->
   occurrences is_check (fst (PingHandler env)) = O
   /\ snd (PingHandler env) <> PeerUnreachable)
  /\ (PingOptions.IsFlood opts = false ->
      occurrences is_sleep (fst (PingHandler env)) = O)
  /\ Forall (fun ev => is_sleep ev = true -> ev = Sleep Millisecond)
            (fst (PingHandler env))
  /\ Forall (fun ev =>
               is_get ev = true ->
               ev = Get (formatAddress (PingMessage.Address msg)))
            (fst (PingHandler env)).
Proof.
  intros Hup Hread Hres.
  pose proof (handler_outcome_cause_of_session env msg opts Hup Hread Hres)
    as Hcause.
  rewrite (handler_runs_session env msg opts Hup Hread Hres) in *.
  destruct (session_census opts (formatAddress (PingMessage.Address msg))
                           (ticks env))
    as (_ & _ & _ & _ & _ & _ & Hfl & Hnf & Hms & Hga).
  assert (Hclose : forall kind,
             kind Close = false ->
             occurrences kind
               (fst (deferClose
                       (session opts
                                (formatAddress (PingMessage.Address msg))
                                (ticks env))))
             = occurrences kind
                 (fst (session opts (formatAddress (PingMessage.Address msg))
                               (ticks env)))).
  { intros kind Hkind.
    destruct (deferClose_events
                (session opts (formatAddress (PingMessage.Address msg))
                         (ticks env))) as [[_ ->] | [_ ->]];
      [reflexivity |].
    cbn [fst]. rewrite occurrences_app. unfold occurrences at 2. simpl.
    rewrite Hkind. simpl. lia. }
  assert (Hall : forall P : Event -> Prop,
             P Close ->
             Forall P (fst (session opts
                                    (formatAddress (PingMessage.Address msg))
                                    (ticks env))) ->
             Forall P (fst (deferClose
                              (session opts
                                 (formatAddress (PingMessage.Address msg))
                                 (ticks env))))).
  { intros P HP HF.
    destruct (deferClose_events
                (session opts (formatAddress (PingMessage.Address msg))
                         (ticks env))) as [[_ ->] | [_ ->]];
      [exact HF |].
    cbn [fst]. apply Forall_app. split; [exact HF |].
    constructor; [exact HP | constructor]. }
  split; [| split; [| split]].
  - intros Hflood. split.
    + rewrite Hclose by reflexivity. apply Hfl. exact Hflood.
    + intros Hend. rewrite Hend in Hcause. simpl in Hcause.
      destruct Hcause as [Hoff _]. congruence.
  - intros Hflood. rewrite Hclose by reflexivity. apply Hnf. exact Hflood.
  - apply Hall; [discriminate | exact Hms].
  - apply Hall; [discriminate | exact Hga].
Qed.

Lemma flood_pauses_instead_of_checking_witness :
  occurrences is_check
    (fst (PingHandler (serve (flood_with_interval 5)
                             (map responsive [1; 2; 3])))) = O
  /\ snd (PingHandler (serve (flood_with_interval 5)
                             (map responsive [1; 2; 3])))
     <> PeerUnreachable.
Proof.
  destruct (flood_pauses_instead_of_checking
              (serve (flood_with_interval 5) (map responsive [1; 2; 3]))
              (flood_with_interval 5)
              (fst (resolvePingOptions (flood_with_interval 5)))
              eq_refl eq_refl eq_refl) as (Hflood & _).
  apply Hflood. reflexivity.
Defined.

(** ** Closing the channel *)

(** X8: the handler closes the channel exactly once, as its last act,
    whenever it returns or panics after a successful upgrade; it does
    nothing at all when the upgrade fails, and has not closed the
    channel while it waits for the next tick. *)
Theorem channel_closed_last (env : Env) :
  match snd (PingHandler env) with
  | UpgradeError => fst (PingHandler env) = []
  | AwaitingTick => occurrences is_close (fst (PingHandler env)) = O
  | _ =>
      exists evs,
        fst (PingHandler env) = evs ++ [Close]
        /\ occurrences is_close evs = O
  end.
Proof.
  destruct (handler_cases env)
    as [[_ ->] | [(_ & _ & ->)
                 | [(_ & msg & reason & _ & _ & ->)
                   | (_ & msg & opts & _ & _ & ->)]]];
    cbn [fst snd]; try reflexivity;
    try (exists []; split; reflexivity).
  pose proof (session_stop_reason
                opts (formatAddress (PingMessage.Address msg)) (ticks env))
    as Hcause.
  destruct (session_census opts (formatAddress (PingMessage.Address msg))
                           (ticks env))
    as (_ & _ & _ & _ & _ & Hcl & _).
  destruct (deferClose_events
              (session opts (formatAddress (PingMessage.Address msg))
                       (ticks env))) as [[Hwait ->] | [Hdone ->]].
  - rewrite Hwait. exact Hcl.
  - cbn [fst snd].
    destruct (snd (session opts (formatAddress (PingMessage.Address msg))
                           (ticks env)));
      simpl in Hcause; try contradiction; try congruence; eauto.
Qed.

(** ** Preload *)

Lemma loop_with_Preload (opts : PingOptions.t) (n : Z) (address : string)
    (ticks : list TickEnv) (s : Z) :
  loop (PingOptions.with_Preload opts n) address ticks s
  = loop opts address ticks s.
Proof.
  revert s. induction ticks as [|e ticks IH]; intros s; [reflexivity |].
  simpl.
  change (tick (PingOptions.with_Preload opts n) address e s)
    with (tick opts address e s).
  destruct (tick opts address e s) as [evs [o|s']]; [reflexivity |].
  rewrite IH. reflexivity.
Qed.

Lemma without_preloads_app (evs evs' : list Event) :
  without_preloads (evs ++ evs')
  = without_preloads evs ++ without_preloads evs'.
Proof.
  unfold without_preloads. apply filter_app.
Qed.

Lemma without_preloads_preload (opts : PingOptions.t) (address : string) :
  without_preloads (preload opts address) = [].
Proof.
  unfold preload. destruct (PingOptions.Preload opts >? 0); [| reflexivity].
  induction (Z.to_nat (PingOptions.Preload opts)) as [|k IH];
    [reflexivity | exact IH].
Qed.

(** X9: preload is warm-up only.  A session whose ticker starts begins
    with one launch per unit of a positive preload count, each at the
    session's address, and none for a count of zero or less; and the
    count changes nothing else: the outcome, the reports and every other
    event are those of the same session with any other preload count. *)
Theorem preload_is_warm_up_only (opts : PingOptions.t) (address : string)
    (ticks : list TickEnv) (n : Z) :
  snd (session (PingOptions.with_Preload opts n) address ticks)
  = snd (session opts address ticks)
  /\ reports (fst (session (PingOptions.with_Preload opts n) address ticks))
     = reports (fst (session opts address ticks))
  /\ without_preloads
       (fst (session (PingOptions.with_Preload opts n) address ticks))
     = without_preloads (fst (session opts address ticks))
  /\ (ticker_starts opts ->
      fst (session opts address ticks)
      = repeat (GoPreload address) (Z.to_nat (PingOptions.Preload opts))
        ++ fst (loop opts address ticks 0)
      /\ occurrences is_preload (fst (session opts address ticks))
         = Z.to_nat (PingOptions.Preload opts)).
Proof.
  assert (Hsame : forall m,
             snd (session (PingOptions.with_Preload opts m) address ticks)
             = snd (session opts address ticks)
             /\ reports (fst (session (PingOptions.with_Preload opts m)
                                      address ticks))
                = reports (fst (loop_or_nothing opts address ticks))
             /\ without_preloads
                  (fst (session (PingOptions.with_Preload opts m)
                                address ticks))
                = without_preloads (fst (loop_or_nothing opts address ticks))).
  { intros m. unfold session, loop_or_nothing.
    change (PingOptions.Wait (PingOptions.with_Preload opts m))
      with (PingOptions.Wait opts).
    destruct (NewTicker (GoInt.mul (PingOptions.Wait opts) Second));
      [| auto].
    rewrite loop_with_Preload.
    destruct (loop opts address ticks 0) as [evs o]. cbn [fst snd].
    rewrite reports_app, without_preloads_app, without_preloads_preload.
    destruct (preload_silent (PingOptions.with_Preload opts m) address)
      as (-> & _).
    auto. }
  destruct (Hsame n) as (Ho & Hr & Hw).
  destruct (Hsame (PingOptions.Preload opts)) as (Ho' & Hr' & Hw').
  assert (Hid : PingOptions.with_Preload opts (PingOptions.Preload opts) = opts)
    by (destruct opts; reflexivity).
  rewrite Hid in Ho', Hr', Hw'.
  split; [exact Ho |]. split; [congruence |]. split; [congruence |].
  intros Hstarts. rewrite (session_started _ _ _ Hstarts). cbn [fst].
  destruct (preload_census opts address) as (Hcount & _).
  destruct (loop_census opts address ticks 0)
    as (_ & _ & _ & _ & _ & _ & Hnone & _).
  split.
  - f_equal. unfold preload.
    destruct (Z.gtb_spec (PingOptions.Preload opts) 0) as [_|Hle];
      [reflexivity |].
    replace (Z.to_nat (PingOptions.Preload opts)) with O by lia.
    reflexivity.
  - rewrite occurrences_app, Hcount, Hnone. lia.
Qed.

Lemma preload_is_warm_up_only_witness :
  fst (session (PingOptions.with_Preload builtinDefaults 2)
               "http://example.com" [responsive 1])
  = repeat (GoPreload "http://example.com") 2
    ++ fst (loop (PingOptions.with_Preload builtinDefaults 2)
                 "http://example.com" [responsive 1] 0)
  /\ occurrences is_preload
       (fst (session (PingOptions.with_Preload builtinDefaults 2)
                     "http://example.com" [responsive 1]))
     = 2%nat.
Proof.
  destruct (preload_is_warm_up_only
              (PingOptions.with_Preload builtinDefaults 2)
              "http://example.com" [responsive 1] 0) as (_ & _ & _ & Hfirst).
  apply Hfirst. reflexivity.
Defined.

(** ** More ticks *)

Lemma tick_never_waits (opts : PingOptions.t) (address : string)
    (e : TickEnv) (s : Z) :
  snd (tick opts address e s) <> inl AwaitingTick.
Proof.
  intros Hwait. apply (tick_stop_reason opts address e s AwaitingTick Hwait).
Qed.

Lemma loop_app (opts : PingOptions.t) (address : string)
    (ticks more : list TickEnv) (s : Z) :
  (snd (loop opts address ticks s) <> AwaitingTick ->
   loop opts address (ticks ++ more) s = loop opts address ticks s)
  /\ (snd (loop opts address ticks s) = AwaitingTick ->
      exists s',
        loop opts address (ticks ++ more) s
        = (fst (loop opts address ticks s) ++ fst (loop opts address more s'),
           snd (loop opts address more s'))).
Proof.
  revert s. induction ticks as [|e ticks IH]; intros s.
  { simpl. split; [congruence |]. intros _. exists s.
    destruct (loop opts address more s); reflexivity. }
  change ((e :: ticks) ++ more) with (e :: (ticks ++ more)).
  rewrite !loop_cons.
  pose proof (tick_never_waits opts address e s) as Hnever.
  destruct (snd (tick opts address e s)) as [o|s1]; cbn [fst snd].
  - split; [reflexivity | congruence].
  - destruct (IH s1) as [Hdone Hwait]. split.
    + intros Hend. rewrite (Hdone Hend). reflexivity.
    + intros Hend. destruct (Hwait Hend) as [s' Hs']. exists s'.
      rewrite Hs'. cbn [fst snd]. rewrite app_assoc. reflexivity.
Qed.

(** X10: an ended session stays ended, and a waiting one only goes on.
    Once the handler has returned or panicked, ticks that come later
    change neither its events nor its outcome; while it waits for the
    next tick, what it has done so far is the beginning of whatever it
    does when more ticks come. *)
Theorem ended_is_final (env : Env) (more : list TickEnv) :
  (snd (PingHandler env) <> AwaitingTick ->
   PingHandler (with_more_ticks env more) = PingHandler env)
  /\ (snd (PingHandler env) = AwaitingTick ->
      exists evs,
        fst (PingHandler (with_more_ticks env more))
        = fst (PingHandler env) ++ evs).
Proof.
  unfold PingHandler, with_more_ticks. cbn [upgrade readJSON ticks].
  destruct (upgrade env); [split; [reflexivity | discriminate] |].
  destruct (readJSON env) as [msg|err];
    [| split; [reflexivity | discriminate]].
  destruct (resolvePingOptions msg) as [opts [err|]];
    [split; [reflexivity | discriminate] |].
  set (address := formatAddress (PingMessage.Address msg)).
  destruct (session_cases opts address (ticks env)) as [[Hneg Hrun] | [Hpos Hrun]].
  - rewrite Hrun, session_not_started by (unfold ticker_starts; lia).
    split; [reflexivity | discriminate].
  - rewrite Hrun, (session_started _ _ _ Hpos).
    destruct (loop_app opts address (ticks env) more 0) as [Hdone Hwait].
    split.
    + rewrite snd_deferClose. cbn [snd]. intros Hend.
      rewrite (Hdone Hend). reflexivity.
    + rewrite snd_deferClose. cbn [snd]. intros Hend.
      destruct (Hwait Hend) as [s' Hs']. rewrite Hs'.
      unfold deferClose at 2. cbn [fst snd]. rewrite Hend.
      exists (fst (deferClose (fst (loop opts address more s'),
                               snd (loop opts address more s')))).
      destruct (deferClose_events
                  (preload opts address
                   ++ fst (loop opts address (ticks env) 0)
                   ++ fst (loop opts address more s'),
                   snd (loop opts address more s')))
        as [[Hw ->] | [Hd ->]];
        destruct (deferClose_events
                    (fst (loop opts address more s'),
                     snd (loop opts address more s')))
          as [[Hw' ->] | [Hd' ->]];
        cbn [fst snd] in *; try congruence;
        rewrite <- ?app_assoc; reflexivity.
Qed.

Lemma ended_is_final_witness :
  PingHandler (with_more_ticks (serve three_pings
                                      (map responsive [1; 2; 3; 4]))
                               (map responsive [5; 6]))
  = PingHandler (serve three_pings (map responsive [1; 2; 3; 4])).
Proof.
  destruct (ended_is_final (serve three_pings (map responsive [1; 2; 3; 4]))
                           (map responsive [5; 6])) as [Hdone _].
  apply Hdone. vm_compute. discriminate.
Defined.

(** ** The first failure of the channel *)

Lemma measurements_occurrences (evs : list Event) :
  measurements evs = occurrences is_get evs.
Proof.
  unfold occurrences.
  induction evs as [|ev evs IH]; [reflexivity |].
  destruct ev; simpl; rewrite ?IH; reflexivity.
Qed.

(** What a tick does when it is below the count, computes a size and
    finds the channel in order. *)
Lemma tick_good (opts : PingOptions.t) (address : string) (e : TickEnv)
    (s : Z) :
  (PingOptions.Count opts >? 0) && (s >=? PingOptions.Count opts) = false ->
  currentPacketSize opts (GoInt.add s 1) <> None ->
  channel_ok e ->
  snd (tick opts address e s) = inr (GoInt.add s 1)
  /\ occurrences is_get (fst (tick opts address e s)) = 1%nat
  /\ occurrences is_write (fst (tick opts address e s))
     = only_if (negb (PingOptions.IsQuiet opts)) 1
  /\ List.length (reports (fst (tick opts address e s)))
     = only_if (negb (PingOptions.IsQuiet opts)) 1
  /\ occurrences is_check (fst (tick opts address e s))
     = only_if (negb (PingOptions.IsFlood opts)) 1
  /\ occurrences is_sleep (fst (tick opts address e s))
     = only_if (PingOptions.IsFlood opts) 1.
Proof.
  intros Hcount Hsize [Hw Hc].
  unfold tick, measureLatency, sendPongMessage, checkConnection, bind, emit,
    ret, stop.
  rewrite Hcount, Hw, Hc.
  destruct (currentPacketSize opts (GoInt.add s 1)); [| contradiction].
  destruct (get e), (PingOptions.IsQuiet opts), (PingOptions.IsFlood opts);
    cbn; repeat split; reflexivity.
Qed.

(** The tick on which the write of the report fails. *)
Lemma tick_write_fails (opts : PingOptions.t) (address : string)
    (e : TickEnv) (s : Z) :
  (PingOptions.Count opts >? 0) && (s >=? PingOptions.Count opts) = false ->
  currentPacketSize opts (GoInt.add s 1) <> None ->
  PingOptions.IsQuiet opts = false ->
  writeJSON e <> None ->
  snd (tick opts address e s) = inl WriteError
  /\ occurrences is_get (fst (tick opts address e s)) = 1%nat
  /\ occurrences is_write (fst (tick opts address e s)) = 1%nat
  /\ reports (fst (tick opts address e s)) = []
  /\ occurrences is_check (fst (tick opts address e s)) = O
  /\ occurrences is_sleep (fst (tick opts address e s)) = O.
Proof.
  intros Hcount Hsize Hq Hw.
  unfold tick, measureLatency, sendPongMessage, checkConnection, bind, emit,
    ret, stop.
  rewrite Hcount, Hq.
  destruct (currentPacketSize opts (GoInt.add s 1)); [| contradiction].
  destruct (writeJSON e); [| contradiction].
  destruct (get e); cbn; repeat split; reflexivity.
Qed.

(** The tick on which the liveness check fails. *)
Lemma tick_check_fails (opts : PingOptions.t) (address : string)
    (e : TickEnv) (s : Z) :
  (PingOptions.Count opts >? 0) && (s >=? PingOptions.Count opts) = false ->
  currentPacketSize opts (GoInt.add s 1) <> None ->
  PingOptions.IsFlood opts = false ->
  writeJSON e = None ->
  writeControl e <> None ->
  snd (tick opts address e s) = inl PeerUnreachable
  /\ occurrences is_get (fst (tick opts address e s)) = 1%nat
  /\ List.length (reports (fst (tick opts address e s)))
     = only_if (negb (PingOptions.IsQuiet opts)) 1
  /\ occurrences is_check (fst (tick opts address e s)) = 1%nat.
Proof.
  intros Hcount Hsize Hf Hw Hc.
  unfold tick, measureLatency, sendPongMessage, checkConnection, bind, emit,
    ret, stop.
  rewrite Hcount, Hf, Hw.
  destruct (currentPacketSize opts (GoInt.add s 1)); [| contradiction].
  destruct (writeControl e); [| contradiction].
  destruct (get e), (PingOptions.IsQuiet opts); cbn; repeat split;
    reflexivity.
Qed.

Lemma below_count (opts : PingOptions.t) (s : Z) :
  PingOptions.Count opts <= 0 \/ s < PingOptions.Count opts ->
  (PingOptions.Count opts >? 0) && (s >=? PingOptions.Count opts) = false.
Proof.
  intros Hroom. apply andb_false_iff.
  destruct (Z.gtb_spec (PingOptions.Count opts) 0); [| left; reflexivity].
  right. destruct (Z.geb_spec s (PingOptions.Count opts));
    [lia | reflexivity].
Qed.

(** A run of ticks on which the channel is in order, below the count,
    followed by more ticks: the loop does each of the first, and goes
    on with the rest from the counter it has reached. *)
Lemma loop_good_prefix (opts : PingOptions.t) (address : string)
    (good more : list TickEnv) :
  sweep_span_nonzero opts ->
  Forall channel_ok good ->
  forall s,
    PingOptions.Count opts <= 0
    \/ (0 <= s
        /\ s + Z.of_nat (List.length good) <= PingOptions.Count opts
        /\ PingOptions.Count opts <= GoInt.max_int) ->
    exists s',
      (0 < PingOptions.Count opts -> s' = s + Z.of_nat (List.length good))
      /\ loop opts address (good ++ more) s
         = (fst (loop opts address good s) ++ fst (loop opts address more s'),
            snd (loop opts address more s'))
      /\ occurrences is_get (fst (loop opts address good s))
         = List.length good
      /\ occurrences is_write (fst (loop opts address good s))
         = only_if (negb (PingOptions.IsQuiet opts)) (List.length good)
      /\ List.length (reports (fst (loop opts address good s)))
         = only_if (negb (PingOptions.IsQuiet opts)) (List.length good)
      /\ occurrences is_check (fst (loop opts address good s))
         = only_if (negb (PingOptions.IsFlood opts)) (List.length good)
      /\ occurrences is_sleep (fst (loop opts address good s))
         = only_if (PingOptions.IsFlood opts) (List.length good).
Proof.
  intros Hspan Hok.
  induction Hok as [|e good He _ IH]; intros s Hroom.
  { exists s. simpl. split; [intros _; lia |].
    split; [destruct (loop opts address more s); reflexivity |].
    destruct (PingOptions.IsQuiet opts), (PingOptions.IsFlood opts);
      repeat split; reflexivity. }
  cbn [List.length] in *.
  assert (Hbelow : (PingOptions.Count opts >? 0)
                   && (s >=? PingOptions.Count opts) = false).
  { apply below_count. destruct Hroom as [Hnone|Hroom]; [left; lia |].
    right. lia. }
  destruct (tick_good opts address e s Hbelow
              (currentPacketSize_total _ _ Hspan) He)
    as (Hgo & Hg & Hw & Hr & Hc & Hs).
  assert (Hnext : 0 < PingOptions.Count opts -> GoInt.add s 1 = s + 1).
  { intros Hpos. destruct Hroom as [Hnone|(H0 & Hfit & Hint)]; [lia |].
    apply wrap_in_range.
    unfold GoInt.in_range, GoInt.min_int, GoInt.max_int in *. lia. }
  destruct (IH (GoInt.add s 1))
    as (s' & Hs' & Hloop & Hg' & Hw' & Hr' & Hc' & Hsl').
  { destruct Hroom as [Hnone|(H0 & Hfit & Hint)]; [left; exact Hnone |].
    right. rewrite Hnext by lia. lia. }
  exists s'. split.
  { intros Hpos. rewrite (Hs' Hpos), (Hnext Hpos). lia. }
  change ((e :: good) ++ more) with (e :: (good ++ more)).
  rewrite !loop_cons, Hgo. cbn [fst snd]. rewrite Hloop. cbn [fst snd].
  rewrite !occurrences_app, reports_app, length_app, app_assoc.
  rewrite Hg, Hw, Hr, Hc, Hs, Hg', Hw', Hr', Hc', Hsl'.
  destruct (PingOptions.IsQuiet opts), (PingOptions.IsFlood opts);
    repeat split; reflexivity.
Qed.

Lemma session_after_good_ticks (opts : PingOptions.t) (address : string)
    (good : list TickEnv) (bad : TickEnv) (rest : list TickEnv) :
  ticker_starts opts ->
  sweep_span_nonzero opts ->
  Forall channel_ok good ->
  count_allows opts (List.length good) ->
  exists s',
    (PingOptions.Count opts >? 0) && (s' >=? PingOptions.Count opts) = false
    /\ session opts address (good ++ bad :: rest)
       = (preload opts address ++ fst (loop opts address good 0)
          ++ fst (loop opts address (bad :: rest) s'),
          snd (loop opts address (bad :: rest) s'))
    /\ occurrences is_get (fst (loop opts address good 0))
       = List.length good
    /\ occurrences is_write (fst (loop opts address good 0))
       = only_if (negb (PingOptions.IsQuiet opts)) (List.length good)
    /\ List.length (reports (fst (loop opts address good 0)))
       = only_if (negb (PingOptions.IsQuiet opts)) (List.length good)
    /\ occurrences is_check (fst (loop opts address good 0))
       = only_if (negb (PingOptions.IsFlood opts)) (List.length good).
Proof.
  intros Hticker Hspan Hok Hroom.
  destruct (loop_good_prefix opts address good (bad :: rest) Hspan Hok 0)
    as (s' & Hs' & Hloop & Hg & Hw & Hr & Hc & _).
  { destruct Hroom as [Hnone|Hroom]; [left; exact Hnone | right; lia]. }
  exists s'. split.
  { apply below_count. destruct Hroom as [Hnone|Hroom]; [left; exact Hnone |].
    right. rewrite Hs' by lia. lia. }
  rewrite (session_started _ _ _ Hticker), Hloop. cbn [fst snd].
  auto 10.
Qed.

(** X11: the first write that fails ends the session.  In a session
    that is not quiet, after [n] ticks on which the channel took
    everything and with the count not yet reached, a tick whose report
    cannot be written ends the session with [WriteError]: [n] reports
    have reached the channel, [n + 1] measurements and [n + 1] writes
    were attempted, the failing tick is not followed by a liveness
    check, and the ticks after it are not used. *)
Theorem write_failure_ends_session (opts : PingOptions.t) (address : string)
    (good : list TickEnv) (bad : TickEnv) (rest : list TickEnv) :
  PingOptions.IsQuiet opts = false ->
  ticker_starts opts ->
  sweep_span_nonzero opts ->
  Forall channel_ok good ->
  writeJSON bad <> None ->
  count_allows opts (List.length good) ->
  snd (session opts address (good ++ bad :: rest)) = WriteError
  /\ List.length (reports (fst (session opts address (good ++ bad :: rest))))
     = List.length good
  /\ occurrences is_get (fst (session opts address (good ++ bad :: rest)))
     = S (List.length good)
  /\ occurrences is_write (fst (session opts address (good ++ bad :: rest)))
     = S (List.length good)
  /\ occurrences is_check (fst (session opts address (good ++ bad :: rest)))
     = only_if (negb (PingOptions.IsFlood opts)) (List.length good).
Proof.
  intros Hq Hticker Hspan Hok Hbad Hroom.
  destruct (session_after_good_ticks opts address good bad rest
              Hticker Hspan Hok Hroom)
    as (s' & Hbelow & -> & Hg & Hw & Hr & Hc).
  destruct (tick_write_fails opts address bad s' Hbelow
              (currentPacketSize_total _ _ Hspan) Hq Hbad)
    as (Hend & Hg' & Hw' & Hr' & Hc' & _).
  rewrite loop_cons, Hend. cbn [fst snd].
  destruct (preload_census opts address) as (_ & Hpg & Hpw & Hpc & _).
  destruct (preload_silent opts address) as (Hpr & _).
  rewrite !occurrences_app, !reports_app, !length_app.
  rewrite Hpr, Hpg, Hpw, Hpc, Hg, Hw, Hr, Hc, Hg', Hw', Hr', Hc', Hq.
  simpl. repeat split; lia.
Qed.

Lemma write_failure_ends_session_witness :
  snd (session (fst (resolvePingOptions plain_pings)) "http://example.com"
               ([responsive 1; unanswered 2]
                ++ broken_pipe 3 :: [responsive 4]))
  = WriteError
  /\ List.length
       (reports (fst (session (fst (resolvePingOptions plain_pings))
                              "http://example.com"
                              ([responsive 1; unanswered 2]
                               ++ broken_pipe 3 :: [responsive 4]))))
     = 2%nat.
Proof.
  destruct (write_failure_ends_session
              (fst (resolvePingOptions plain_pings)) "http://example.com"
              [responsive 1; unanswered 2] (broken_pipe 3) [responsive 4])
    as (Hend & Hreports & _).
  - reflexivity.
  - reflexivity.
  - intros Hon. vm_compute in Hon. discriminate Hon.
  - repeat constructor.
  - discriminate.
  - left. vm_compute. discriminate.
  - split; [exact Hend | exact Hreports].
Defined.

(** X12: the first liveness check that fails ends the session.  Without
    flood, after [n] ticks on which the channel took everything and with
    the count not yet reached, a tick whose report is written but whose
    liveness check fails ends the session with [PeerUnreachable]: the
    report of that tick has already reached the channel, so [n + 1]
    reports are written unless the session is quiet, after [n + 1]
    measurements and [n + 1] checks. *)
Theorem liveness_failure_ends_session (opts : PingOptions.t)
    (address : string) (good : list TickEnv) (bad : TickEnv)
    (rest : list TickEnv) :
  PingOptions.IsFlood opts = false ->
  ticker_starts opts ->
  sweep_span_nonzero opts ->
  Forall channel_ok good ->
  writeJSON bad = None ->
  writeControl bad <> None ->
  count_allows opts (List.length good) ->
  snd (session opts address (good ++ bad :: rest)) = PeerUnreachable
  /\ List.length (reports (fst (session opts address (good ++ bad :: rest))))
     = only_if (negb (PingOptions.IsQuiet opts)) (S (List.length good))
  /\ occurrences is_get (fst (session opts address (good ++ bad :: rest)))
     = S (List.length good)
  /\ occurrences is_check (fst (session opts address (good ++ bad :: rest)))
     = S (List.length good).
Proof.
  intros Hf Hticker Hspan Hok Hw Hbad Hroom.
  destruct (session_after_good_ticks opts address good bad rest
              Hticker Hspan Hok Hroom)
    as (s' & Hbelow & -> & Hg & _ & Hr & Hc).
  destruct (tick_check_fails opts address bad s' Hbelow
              (currentPacketSize_total _ _ Hspan) Hf Hw Hbad)
    as (Hend & Hg' & Hr' & Hc').
  rewrite loop_cons, Hend. cbn [fst snd].
  destruct (preload_census opts address) as (_ & Hpg & _ & Hpc & _).
  destruct (preload_silent opts address) as (Hpr & _).
  rewrite !occurrences_app, !reports_app, !length_app.
  rewrite Hpr, Hpg, Hpc, Hg, Hr, Hc, Hg', Hr', Hc', Hf.
  destruct (PingOptions.IsQuiet opts); simpl; repeat split; lia.
Qed.

Lemma liveness_failure_ends_session_witness :
  snd (session (fst (resolvePingOptions plain_pings)) "http://example.com"
               ([responsive 1] ++ peer_gone 2 :: [responsive 3]))
  = PeerUnreachable
  /\ List.length
       (reports (fst (session (fst (resolvePingOptions plain_pings))
                              "http://example.com"
                              ([responsive 1]
                               ++ peer_gone 2 :: [responsive 3]))))
     = 2%nat.
Proof.
  destruct (liveness_failure_ends_session
              (fst (resolvePingOptions plain_pings)) "http://example.com"
              [responsive 1] (peer_gone 2) [responsive 3])
    as (Hend & Hreports & _).
  - reflexivity.
  - reflexivity.
  - intros Hon. vm_compute in Hon. discriminate Hon.
  - repeat constructor.
  - reflexivity.
  - discriminate.
  - left. vm_compute. discriminate.
  - split; [exact Hend | exact Hreports].
Defined.

(** ** A counted run of the handler *)

(** X13: a run of the handler with the count [c > 0], a ticker that
    starts, a sweep span that is not zero and a channel that takes every
    write measures exactly [c] times, writes the reports numbered 0 to
    [c - 1] unless quiet, ends with [CountExhausted] on the tick after
    the [c]-th, and closes the channel last. *)
Theorem counted_run_ends_after_count (env : Env) (msg : PingMessage.t)
    (opts : PingOptions.t) :
  upgrade env = None ->
  readJSON env = inl msg ->
  resolvePingOptions msg = (opts, None) ->
  0 < PingOptions.Count opts <= GoInt.max_int ->
  ticker_starts opts ->
  sweep_span_nonzero opts ->
  Forall channel_ok (ticks env) ->
  (Z.to_nat (PingOptions.Count opts) < List.length (ticks env))%nat ->
  snd (PingHandler env) = CountExhausted
  /\ occurrences is_get (fst (PingHandler env))
     = Z.to_nat (PingOptions.Count opts)
  /\ (PingOptions.IsQuiet opts = false ->
      map PongMessage.Sequence (reports (fst (PingHandler env)))
      = counting 0 (Z.to_nat (PingOptions.Count opts)))
  /\ exists evs, fst (PingHandler env) = evs ++ [Close].
Proof.
  intros Hup Hread Hres Hcount Hticker Hspan Hok Hlen.
  rewrite (handler_runs_session env msg opts Hup Hread Hres).
  destruct (count_exhaustion opts (formatAddress (PingMessage.Address msg))
              (ticks env) Hcount Hticker Hspan Hok Hlen)
    as (Hend & Hmeas & Hseq).
  destruct (deferClose_events
              (session opts (formatAddress (PingMessage.Address msg))
                       (ticks env))) as [[Hwait _] | [_ ->]];
    [congruence |].
  cbn [fst snd]. rewrite occurrences_app, reports_app, app_nil_r.
  rewrite <- measurements_occurrences, Hmeas.
  split; [exact Hend |]. split; [unfold occurrences; simpl; lia |].
  split; [exact Hseq | eauto].
Qed.

Lemma counted_run_ends_after_count_witness :
  snd (PingHandler (serve three_pings (map responsive [1; 2; 3; 4])))
  = CountExhausted
  /\ occurrences is_get
       (fst (PingHandler (serve three_pings (map responsive [1; 2; 3; 4]))))
     = 3%nat.
Proof.
  destruct (counted_run_ends_after_count
              (serve three_pings (map responsive [1; 2; 3; 4]))
              three_pings (fst (resolvePingOptions three_pings)))
    as (Hend & Hget & _).
  - reflexivity.
  - reflexivity.
  - reflexivity.
  - vm_compute. split; [reflexivity | discriminate].
  - reflexivity.
  - intros Hon. vm_compute in Hon. discriminate Hon.
  - repeat constructor.
  - vm_compute. lia.
  - split; [exact Hend | exact Hget].
Defined.

(** ** What the reports carry *)

Lemma tick_report_fields (opts : PingOptions.t) (address : string)
    (e : TickEnv) (s : Z) :
  PingOptions.IsQuiet opts = false ->
  match reports (fst (tick opts address e s)) with
  | [] => exists o, snd (tick opts address e s) = inl o
  | [p] =>
      PongMessage.Type_ p = "pong"
      /\ PongMessage.Address p = address
      /\ PongMessage.Timestamp p = now e
      /\ PongMessage.Success p = probe_ok e
      /\ PongMessage.Latency p = measured e
  | _ => False
  end.
Proof.
  intros Hq. unfold probe_ok, measured.
  tick_cases opts e s; try discriminate Hq; eauto; repeat split.
Qed.

Lemma loop_reports_follow_ticks (opts : PingOptions.t) (address : string)
    (ticks : list TickEnv) (s : Z) :
  Forall (fun p => PongMessage.Type_ p = "pong"
                   /\ PongMessage.Address p = address)
         (reports (fst (loop opts address ticks s)))
  /\ map PongMessage.Timestamp (reports (fst (loop opts address ticks s)))
     = map now (firstn (List.length
                          (reports (fst (loop opts address ticks s))))
                       ticks)
  /\ map PongMessage.Success (reports (fst (loop opts address ticks s)))
     = map probe_ok
           (firstn (List.length (reports (fst (loop opts address ticks s))))
                   ticks)
  /\ map PongMessage.Latency (reports (fst (loop opts address ticks s)))
     = map measured
           (firstn (List.length (reports (fst (loop opts address ticks s))))
                   ticks).
Proof.
  destruct (PingOptions.IsQuiet opts) eqn:Hq.
  { destruct (loop_quiet opts address ticks s Hq) as (-> & _).
    simpl. auto. }
  revert s. induction ticks as [|e ticks IH]; intros s; [simpl; auto |].
  rewrite loop_cons.
  pose proof (tick_report_fields opts address e s Hq) as Hfields.
  destruct (reports (fst (tick opts address e s))) as [|p [|p' rest]] eqn:Hrep;
    [| | contradiction].
  - destruct Hfields as [o Ho]. rewrite Ho. cbn [fst]. rewrite Hrep.
    simpl. auto.
  - destruct Hfields as (Hty & Haddr & Hts & Hsucc & Hlat).
    destruct (snd (tick opts address e s)) as [o|s']; cbn [fst].
    + rewrite Hrep. simpl. rewrite Hts, Hsucc, Hlat. auto.
    + destruct (IH s') as (Hall & Htime & Hsuccs & Hlats).
      rewrite reports_app, Hrep. simpl.
      rewrite Hts, Hsucc, Hlat, Htime, Hsuccs, Hlats. auto.
Qed.

(** X14: the reports that reach the channel are those of the first
    ticks, one per tick and in order: each is a "pong" for the
    normalised address, stamped with the time of its tick, with the
    success of that tick's probe and the latency it measured, 0 for a
    failed probe. *)
Theorem reports_follow_the_ticks (env : Env) (msg : PingMessage.t)
    (opts : PingOptions.t) :
  upgrade env = None ->
  readJSON env = inl msg ->
  resolvePingOptions msg = (opts, None) ->
  Forall (fun p => PongMessage.Type_ p = "pong"
                   /\ PongMessage.Address p
                      = formatAddress (PingMessage.Address msg))
         (reports (fst (PingHandler env)))
  /\ map PongMessage.Timestamp (reports (fst (PingHandler env)))
     = map now (firstn (List.length (reports (fst (PingHandler env))))
                       (ticks env))
  /\ map PongMessage.Success (reports (fst (PingHandler env)))
     = map probe_ok (firstn (List.length (reports (fst (PingHandler env))))
                            (ticks env))
  /\ map PongMessage.Latency (reports (fst (PingHandler env)))
     = map measured (firstn (List.length (reports (fst (PingHandler env))))
                            (ticks env)).
Proof.
  intros Hup Hread Hres.
  rewrite (handler_runs_session env msg opts Hup Hread Hres),
    reports_deferClose.
  destruct (session_reports opts (formatAddress (PingMessage.Address msg))
                            (ticks env)) as [-> | ->].
  - simpl. auto.
  - apply loop_reports_follow_ticks.
Qed.

Lemma reports_follow_the_ticks_witness :
  map PongMessage.Success
      (reports (fst (PingHandler (serve plain_pings
                                        [responsive 1; unanswered 2]))))
  = map probe_ok
        (firstn (List.length
                   (reports (fst (PingHandler
                                    (serve plain_pings
                                           [responsive 1; unanswered 2])))))
                [responsive 1; unanswered 2]).
Proof.
  destruct (reports_follow_the_ticks
              (serve plain_pings [responsive 1; unanswered 2])
              plain_pings (fst (resolvePingOptions plain_pings))
              eq_refl eq_refl eq_refl) as (_ & _ & Hsucc & _).
  exact Hsucc.
Defined.

(** ** The range of the sweep *)

Lemma effectiveSize_in_range (opts : PingOptions.t) (k : Z) :
  0 < PingOptions.SweepMaxSize opts ->
  PingOptions.SweepMinSize opts < PingOptions.SweepMaxSize opts ->
  PingOptions.SweepMinSize opts <= effectiveSize opts k
                                <= PingOptions.SweepMaxSize opts.
Proof.
  intros Hon Hlt. unfold effectiveSize.
  destruct (Z.leb_spec (PingOptions.SweepMaxSize opts) 0); [lia |].
  pose proof (Z.mod_pos_bound
                ((k - 1) * PingOptions.SweepIncrSize opts)
                (PingOptions.SweepMaxSize opts
                 - PingOptions.SweepMinSize opts + 1)) as Hbound.
  lia.
Qed.

(** X15: where nothing wraps, the byte size of every report of a
    sweeping session lies between the sweep minimum and the sweep
    maximum, and the first report carries the minimum; without a sweep
    every report carries the resolved packet size, which is not
    negative. *)
Theorem report_bytes_stay_in_range (env : Env) (msg : PingMessage.t)
    (opts : PingOptions.t) (i : nat) (p : PongMessage.t) :
  upgrade env = None ->
  readJSON env = inl msg ->
  resolvePingOptions msg = (opts, None) ->
  GoInt.in_range (PingOptions.SweepMinSize opts) ->
  GoInt.in_range (PingOptions.SweepMaxSize opts) ->
  (0 < PingOptions.SweepMaxSize opts ->
   Z.of_nat i * PingOptions.SweepIncrSize opts <= GoInt.max_int
   /\ PingOptions.SweepMaxSize opts - PingOptions.SweepMinSize opts + 1
      <= GoInt.max_int) ->
  nth_error (reports (fst (PingHandler env))) i = Some p ->
  (0 < PingOptions.SweepMaxSize opts ->
   PingOptions.SweepMinSize opts <= PongMessage.Bytes p
                                 <= PingOptions.SweepMaxSize opts
   /\ (i = O -> PongMessage.Bytes p = PingOptions.SweepMinSize opts))
  /\ (PingOptions.SweepMaxSize opts <= 0 ->
      PongMessage.Bytes p = PingOptions.PacketSize opts
      /\ 0 <= PongMessage.Bytes p).
Proof.
  intros Hup Hread Hres Hmin Hmax Hbounds Hp.
  pose proof (resolved_options_validate msg opts Hres) as Hvalid.
  rewrite (handler_runs_session env msg opts Hup Hread Hres),
    reports_deferClose in Hp.
  rewrite (session_report_bytes
             opts (formatAddress (PingMessage.Address msg)) (ticks env) i p
             Hvalid Hmin Hmax Hbounds Hp).
  apply validate_accepts_iff in Hvalid.
  destruct Hvalid as (_ & _ & _ & Hsize & Hsweep & _).
  split.
  - intros Hon. destruct (Hsweep Hon) as [Hlt Hincr].
    split; [apply effectiveSize_in_range; assumption |].
    intros ->. unfold effectiveSize.
    destruct (Z.leb_spec (PingOptions.SweepMaxSize opts) 0); [lia |].
    replace (Z.of_nat 0 + 1 - 1) with 0 by lia.
    rewrite Z.mul_0_l, Z.mod_0_l by lia. lia.
  - intros Hoff. rewrite (effectiveSize_fixed _ _ Hoff).
    split; [reflexivity | exact Hsize].
Qed.

Lemma report_bytes_stay_in_range_witness :
  10 <= PongMessage.Bytes fourth_sweep_report <= 20.
Proof.
  destruct (report_bytes_stay_in_range
              (serve (sweep_10_20 5) (map responsive [1; 2; 3; 4; 5]))
              (sweep_10_20 5) (fst (resolvePingOptions (sweep_10_20 5))) 3
              fourth_sweep_report) as [Hon _].
  - reflexivity.
  - reflexivity.
  - reflexivity.
  - unfold GoInt.in_range, GoInt.min_int, GoInt.max_int. simpl. lia.
  - unfold GoInt.in_range, GoInt.min_int, GoInt.max_int. simpl. lia.
  - intros _. unfold GoInt.max_int. simpl. lia.
  - reflexivity.
  - apply Hon. reflexivity.
Defined.

(** ** The revision without options *)

Lemma legacy_loop_cons (address : string) (e : TickEnv)
    (ticks : list TickEnv) (s : Z) :
  Legacy.loop address (e :: ticks) s =
  match snd (Legacy.tick address e s) with
  | inl o => (fst (Legacy.tick address e s), o)
  | inr s' =>
      (fst (Legacy.tick address e s) ++ fst (Legacy.loop address ticks s'),
       snd (Legacy.loop address ticks s'))
  end.
Proof.
  simpl. destruct (Legacy.tick address e s) as [evs [o|s']]; simpl;
    [reflexivity |].
  destruct (Legacy.loop address ticks s'); reflexivity.
Qed.

(** A tick of the options revision at the built-in defaults is the tick
    of the revision without options, apart from the bytes and the
    success of the report. *)
Lemma tick_defaults_as_legacy (address : string) (e : TickEnv) (s : Z) :
  snd (tick builtinDefaults address e s) = snd (Legacy.tick address e s)
  /\ map as_legacy (fst (tick builtinDefaults address e s))
     = fst (Legacy.tick address e s).
Proof.
  destruct e as [n g w c].
  unfold tick, Legacy.tick, measureLatency, sendPongMessage, checkConnection,
    bind, emit, ret, stop.
  cbn.
  destruct g, w, c; cbn; split; reflexivity.
Qed.

Lemma loop_defaults_as_legacy (address : string) (ticks : list TickEnv)
    (s : Z) :
  snd (loop builtinDefaults address ticks s) = snd (Legacy.loop address ticks s)
  /\ map as_legacy (fst (loop builtinDefaults address ticks s))
     = fst (Legacy.loop address ticks s).
Proof.
  revert s. induction ticks as [|e ticks IH]; intros s; [split; reflexivity |].
  rewrite loop_cons, legacy_loop_cons.
  destruct (tick_defaults_as_legacy address e s) as [Hsnd Hfst].
  rewrite <- Hsnd, <- Hfst.
  destruct (snd (tick builtinDefaults address e s)) as [o|s']; cbn [fst snd];
    [split; reflexivity |].
  destruct (IH s') as [Hsnd' Hfst'].
  rewrite map_app, Hsnd', Hfst'. split; reflexivity.
Qed.

(** X16: on a message that carries an address and nothing else, the
    handler with options does what the handler without options does:
    the same outcome after the same events, except that its reports
    carry 56 bytes and the success of the probe where the older ones
    carry 64 bytes and [success = false]. *)
Theorem bare_message_runs_as_before (env : Env) (address : string) :
  readJSON env = inl (PingMessage.bare address) ->
  snd (PingHandler env) = snd (Legacy.PingHandler env)
  /\ map as_legacy (fst (PingHandler env)) = fst (Legacy.PingHandler env).
Proof.
  intros Hread. unfold PingHandler, Legacy.PingHandler. rewrite Hread.
  destruct (upgrade env); [split; reflexivity |].
  change (resolvePingOptions (PingMessage.bare address))
    with (builtinDefaults, @None string).
  change (Legacy.formatAddress (PingMessage.Address (PingMessage.bare address)))
    with (formatAddress (PingMessage.Address (PingMessage.bare address))).
  unfold session. cbn [NewTicker].
  change (NewTicker (GoInt.mul (PingOptions.Wait builtinDefaults) Second))
    with (Some 1000000000).
  change (NewTicker Legacy.pingInterval) with (Some 1000000000).
  change (preload builtinDefaults
            (formatAddress (PingMessage.Address (PingMessage.bare address))))
    with (@nil Event).
  destruct (loop_defaults_as_legacy
              (formatAddress (PingMessage.Address (PingMessage.bare address)))
              (ticks env) 0) as [Hsnd Hfst].
  destruct (loop builtinDefaults
              (formatAddress (PingMessage.Address (PingMessage.bare address)))
              (ticks env) 0) as [evs o].
  destruct (Legacy.loop
              (formatAddress (PingMessage.Address (PingMessage.bare address)))
              (ticks env) 0) as [evs' o'].
  cbn [fst snd app] in *. subst o' evs'.
  unfold deferClose. cbn [fst snd].
  destruct o; cbn [fst snd]; rewrite ?map_app; split; reflexivity.
Qed.

Lemma bare_message_runs_as_before_witness :
  snd (PingHandler (serve (PingMessage.bare "example.com")
                          [responsive 1; peer_gone 2]))
  = snd (Legacy.PingHandler (serve (PingMessage.bare "example.com")
                                   [responsive 1; peer_gone 2])).
Proof.
  destruct (bare_message_runs_as_before
              (serve (PingMessage.bare "example.com")
                     [responsive 1; peer_gone 2])
              "example.com" eq_refl) as [Hsnd _].
  exact Hsnd.
Defined.

Lemma legacy_tick_cases (address : string) (e : TickEnv) (s : Z) :
  Forall (fun p => PongMessage.Bytes p = 64
                   /\ PongMessage.Success p = false
                   /\ PongMessage.Type_ p = "pong"
                   /\ PongMessage.Address p = address)
         (reports (fst (Legacy.tick address e s)))
  /\ match snd (Legacy.tick address e s) with
     | inr s' => s' = GoInt.add s 1 /\ channel_ok e
     | inl WriteError => writeJSON e <> None
     | inl PeerUnreachable => writeJSON e = None /\ writeControl e <> None
     | inl _ => False
     end.
Proof.
  unfold Legacy.tick, measureLatency, sendPongMessage, checkConnection, bind,
    emit, ret, stop, channel_ok.
  destruct (get e), (writeJSON e), (writeControl e); cbn;
    repeat split; try discriminate; repeat constructor.
Qed.

Lemma legacy_loop_cases (address : string) (ticks : list TickEnv) (s : Z) :
  Forall (fun p => PongMessage.Bytes p = 64
                   /\ PongMessage.Success p = false
                   /\ PongMessage.Type_ p = "pong"
                   /\ PongMessage.Address p = address)
         (reports (fst (Legacy.loop address ticks s)))
  /\ match snd (Legacy.loop address ticks s) with
     | AwaitingTick => Forall channel_ok ticks
     | WriteError => exists e, In e ticks /\ writeJSON e <> None
     | PeerUnreachable => exists e, In e ticks /\ writeControl e <> None
     | _ => False
     end.
Proof.
  revert s. induction ticks as [|e ticks IH]; intros s;
    [simpl; split; constructor |].
  rewrite legacy_loop_cons.
  destruct (legacy_tick_cases address e s) as [Hall Hend].
  destruct (snd (Legacy.tick address e s)) as [o|s']; cbn [fst snd].
  - split; [exact Hall |].
    destruct o; try contradiction.
    + exists e. simpl. auto.
    + exists e. simpl. split; [auto | apply Hend].
  - destruct Hend as [_ Hok]. destruct (IH s') as [Hall' Hend'].
    split; [rewrite reports_app; apply Forall_app; split; assumption |].
    destruct (snd (Legacy.loop address ticks s')); try contradiction.
    + destruct Hend' as (e0 & Hin & Hw). exists e0. simpl. auto.
    + destruct Hend' as (e0 & Hin & Hc). exists e0. simpl. auto.
    + constructor; assumption.
Qed.

(** X17: the handler without options stops only on the channel.  Each
    of its reports carries 64 bytes and [success = false], whatever the
    probe answered; it ends with [WriteError] only when some write
    fails, with [PeerUnreachable] only when some liveness check fails,
    never by a count, a validation or a panic; and it is still waiting
    for a tick exactly when the channel took everything so far. *)
Theorem legacy_handler_stops_only_on_the_channel (env : Env) :
  Forall (fun p => PongMessage.Bytes p = 64
                   /\ PongMessage.Success p = false
                   /\ PongMessage.Type_ p = "pong")
         (reports (fst (Legacy.PingHandler env)))
  /\ match snd (Legacy.PingHandler env) with
     | UpgradeError => upgrade env <> None
     | ReadError => exists err, readJSON env = inr err
     | WriteError => exists e, In e (ticks env) /\ writeJSON e <> None
     | PeerUnreachable => exists e, In e (ticks env) /\ writeControl e <> None
     | AwaitingTick => Forall channel_ok (ticks env)
     | _ => False
     end.
Proof.
  unfold Legacy.PingHandler.
  destruct (upgrade env) as [err|];
    [simpl; split; [constructor | discriminate] |].
  destruct (readJSON env) as [ping|err];
    [| simpl; split; [constructor | eauto]].
  change (NewTicker Legacy.pingInterval) with (Some 1000000000).
  cbn match.
  destruct (legacy_loop_cases
              (Legacy.formatAddress (PingMessage.Address ping)) (ticks env) 0)
    as [Hall Hend].
  rewrite reports_deferClose, snd_deferClose.
  split.
  - eapply Forall_impl; [| exact Hall].
    intros p (Hb & Hs & Ht & _). auto.
  - destruct (snd (Legacy.loop
                     (Legacy.formatAddress (PingMessage.Address ping))
                     (ticks env) 0));
      try contradiction; exact Hend.
Qed.
